(** * learn-gan: the notebook [generate_gaussian.ipynb]

    A shallow embedding of the notebook's cells: the two sample generators,
    the [Generator] and [Discriminator] modules, the set-up cell, [train]
    and the evaluation cell.

    The notebook is a client of numpy and torch.  What it asks of them is
    modelled as follows.

    - Scalars.  Every tensor entry is a value of an abstract type [F] with
      the arithmetic of the class [Scalar]; nothing is assumed about that
      arithmetic unless a theorem says so, so each theorem holds for every
      interpretation of it.  Two interpretations are given to run the
      cells: a fixed-point one and IEEE 754 binary32.
    - Random sources.  numpy's global [RandomState] and torch's default
      generator are abstract states from which one scalar is drawn at a
      time (class [RandomSource]).
    - Autograd.  A tensor that takes part in a graph carries its [grad_fn]:
      the function that maps the gradient reaching the tensor to the
      gradients it sends to the parameters (the leaves).
    - Parameters live in a store indexed by [ParamId]; modules and
      optimizers refer to them by identifier, as the Python objects share
      them by reference.
    - Python exceptions are the [Raise] results of the monad [M]. *)

From Stdlib Require Import String.
From Stdlib Require Import List ZArith QArith Qround Lia Bool.
From Stdlib Require SpecFloat.
Import ListNotations.

Set Implicit Arguments.

(** ** Scalars and random sources *)

Class Scalar (F : Type) : Type := {
  fzero : F;
  fone : F;
  fadd : F -> F -> F;
  fsub : F -> F -> F;
  fmul : F -> F -> F;
  fdiv : F -> F -> F;
  fneg : F -> F;
  fexp : F -> F;
  flog : F -> F;
  fsqrt : F -> F;
  (** [fltb x y] is the comparison [x < y] *)
  fltb : F -> F -> bool;
  (** the scalar denoted by a decimal literal of the notebook or of torch *)
  lit : Q -> F;
  (** the conversion [dtype=torch.float32] *)
  float32 : F -> F
}.

Class RandomSource (F : Type) : Type := {
  (** numpy's global random state *)
  RandomState : Type;
  (** one draw of [np.random.rand]: uniform on [0,1) *)
  random_sample : RandomState -> F * RandomState;
  (** one draw of [np.random.randn]: standard normal *)
  standard_normal : RandomState -> F * RandomState;
  (** torch's default generator *)
  TorchGenerator : Type;
  (** one draw of [Tensor.uniform_(lo, hi)] *)
  uniform_ : F -> F -> TorchGenerator -> F * TorchGenerator
}.

(** ** Python exceptions *)

Inductive PyError : Type :=
| ValueError (msg : string)
| RuntimeError (msg : string).

Inductive Result (A : Type) : Type :=
| Ok (a : A)
| Raise (e : PyError).

Arguments Ok {A} a.
Arguments Raise {A} e.

(** ** The monad of the cells: state and exceptions *)

Definition PyM (S A : Type) : Type := S -> Result (A * S).

Definition ret {S A : Type} (a : A) : PyM S A := fun w => Ok (a, w).

Definition bind {S A B : Type} (m : PyM S A) (k : A -> PyM S B) : PyM S B :=
  fun w =>
    match m w with
    | Ok (a, w') => k a w'
    | Raise e => Raise e
    end.

Definition raise {S A : Type} (e : PyError) : PyM S A := fun _ => Raise e.

Definition gets {S A : Type} (f : S -> A) : PyM S A := fun w => Ok (f w, w).

Definition modify {S : Type} (f : S -> S) : PyM S unit :=
  fun w => Ok (tt, f w).

Declare Scope py_scope.
Delimit Scope py_scope with py.
Notation "x <- m ;; k" := (bind m (fun x => k))
  (at level 61, m at next level, right associativity) : py_scope.
Notation "m ;;; k" := (bind m (fun _ => k))
  (at level 61, right associativity) : py_scope.
Open Scope py_scope.

(** ** Parameters *)

(** The four [nn.Parameter] objects created by the set-up cell. *)
Inductive ParamId : Type :=
| generator_fc_weight
| generator_fc_bias
| discriminator_fc_weight
| discriminator_fc_bias.

Definition ParamId_eqb (p q : ParamId) : bool :=
  match p, q with
  | generator_fc_weight, generator_fc_weight => true
  | generator_fc_bias, generator_fc_bias => true
  | discriminator_fc_weight, discriminator_fc_weight => true
  | discriminator_fc_bias, discriminator_fc_bias => true
  | _, _ => false
  end.

(** What is kept for each parameter (its tensors, its optimizer state). *)
Record PerParam (A : Type) : Type := {
  at_generator_fc_weight : A;
  at_generator_fc_bias : A;
  at_discriminator_fc_weight : A;
  at_discriminator_fc_bias : A
}.

Definition lookup {A : Type} (m : PerParam A) (p : ParamId) : A :=
  match p with
  | generator_fc_weight => at_generator_fc_weight m
  | generator_fc_bias => at_generator_fc_bias m
  | discriminator_fc_weight => at_discriminator_fc_weight m
  | discriminator_fc_bias => at_discriminator_fc_bias m
  end.

Definition tabulate {A : Type} (f : ParamId -> A) : PerParam A :=
  {| at_generator_fc_weight := f generator_fc_weight;
     at_generator_fc_bias := f generator_fc_bias;
     at_discriminator_fc_weight := f discriminator_fc_weight;
     at_discriminator_fc_bias := f discriminator_fc_bias |}.

Definition update {A : Type} (m : PerParam A) (p : ParamId) (v : A)
  : PerParam A :=
  tabulate (fun q => if ParamId_eqb p q then v else lookup m q).

(** [nn.Linear]: the module holds its two parameters. *)
Record Linear : Type := {
  weight : ParamId;
  bias : ParamId
}.

Definition Linear_parameters (l : Linear) : list ParamId :=
  [weight l; bias l].

(** [class Generator(nn.Module)]: [self.flatten] holds no parameter and
    [forward] never calls it; [self.fc] is the only submodule with state. *)
Record Generator : Type := {
  Generator_fc : Linear
}.

(** [class Discriminator(nn.Module)] *)
Record Discriminator : Type := {
  Discriminator_fc : Linear
}.

(** [Module.parameters()] *)
Definition Generator_parameters (g : Generator) : list ParamId :=
  Linear_parameters (Generator_fc g).

Definition Discriminator_parameters (d : Discriminator) : list ParamId :=
  Linear_parameters (Discriminator_fc d).

(** The module objects that the set-up cell binds to the globals
    [generator] and [discriminator]. *)
Definition generator : Generator :=
  {| Generator_fc :=
       {| weight := generator_fc_weight; bias := generator_fc_bias |} |}.

Definition discriminator : Discriminator :=
  {| Discriminator_fc :=
       {| weight := discriminator_fc_weight;
          bias := discriminator_fc_bias |} |}.

Section Model.

Context {F : Type} {SF : Scalar F} {RS : RandomSource F}.

(** ** Tensors *)

Definition vector : Type := list F.
Definition matrix : Type := list (list F).

Inductive tensor : Type :=
| T0 (x : F)
| T1 (v : vector)
| T2 (m : matrix).

(** [Tensor.shape] *)
Definition shape (t : tensor) : list nat :=
  match t with
  | T0 _ => []
  | T1 v => [length v]
  | T2 m => [length m; length (hd [] m)]
  end.

(** An in-place elementwise update [self.op_(other)]: the result has the
    shape of [self]; where [other] has no entry, the entry of [self] stays
    (torch refuses such a call; autograd and the optimizers only make it
    with equal shapes). *)
Fixpoint vzip_ (f : F -> F -> F) (self other : vector) : vector :=
  match self, other with
  | x :: self', y :: other' => f x y :: vzip_ f self' other'
  | _, _ => self
  end.

Fixpoint mzip_ (f : F -> F -> F) (self other : matrix) : matrix :=
  match self, other with
  | r :: self', s :: other' => vzip_ f r s :: mzip_ f self' other'
  | _, _ => self
  end.

Definition tzip_ (f : F -> F -> F) (self other : tensor) : tensor :=
  match self, other with
  | T0 x, T0 y => T0 (f x y)
  | T1 v, T1 u => T1 (vzip_ f v u)
  | T2 m, T2 n => T2 (mzip_ f m n)
  | _, _ => self
  end.

Definition tmap (f : F -> F) (t : tensor) : tensor :=
  match t with
  | T0 x => T0 (f x)
  | T1 v => T1 (map f v)
  | T2 m => T2 (map (map f) m)
  end.

Definition zeros_like (t : tensor) : tensor := tmap (fun _ => fzero) t.

Definition tensor_add (a b : tensor) : tensor := tzip_ fadd a b.

Definition as_matrix (t : tensor) : matrix :=
  match t with T2 m => m | _ => [] end.

Definition as_vector (t : tensor) : vector :=
  match t with T1 v => v | _ => [] end.

Definition fmax (a b : F) : F := if fltb a b then b else a.

Fixpoint fpow (x : F) (n : nat) : F :=
  match n with
  | O => fone
  | S n' => fmul x (fpow x n')
  end.

Definition fsum (l : list F) : F := fold_left fadd l fzero.

Definition dot (a b : vector) : F :=
  fsum (map (fun ab => fmul (fst ab) (snd ab)) (combine a b)).

Definition vadd (a b : vector) : vector :=
  map (fun ab => fadd (fst ab) (snd ab)) (combine a b).

Definition vscale (c : F) (a : vector) : vector := map (fmul c) a.

(** [sum_i c_i * r_i] over the paired scalars and rows, a vector of length
    [n]. *)
Definition weighted_rows (n : nat) (cs : list F) (rs : matrix) : vector :=
  fold_left (fun acc cr => vadd acc (vscale (fst cr) (snd cr)))
            (combine cs rs) (repeat fzero n).

Definition column (j : nat) (m : matrix) : vector :=
  map (fun r => nth j r fzero) m.

(** ** Autograd *)

(** What a backward pass hands to the leaves: for each parameter reached,
    the gradient to accumulate into its [.grad]. *)
Definition Grads : Type := list (ParamId * tensor).

(** A 2-D tensor and its [grad_fn] ([None]: the tensor does not require
    grad). *)
Record Var : Type := {
  val : matrix;
  grad_fn : option (matrix -> Grads)
}.

(** A 0-dim tensor, the value of a loss, and its [grad_fn]. *)
Record Loss : Type := {
  lval : F;
  lgrad_fn : option (F -> Grads)
}.

(** [Tensor.detach()] *)
Definition detach (x : Var) : Var := {| val := val x; grad_fn := None |}.

Definition propagate (x : Var) (g : matrix) : Grads :=
  match grad_fn x with
  | Some k => k g
  | None => []
  end.

(** ** The world the cells run in *)

Record Param : Type := {
  data : tensor;
  grad : option tensor
}.

Record SGD : Type := {
  sgd_params : list ParamId;
  sgd_lr : F
}.

Record AdamState : Type := {
  step_count : nat;
  exp_avg : tensor;
  exp_avg_sq : tensor
}.

Record Adam : Type := {
  adam_params : list ParamId;
  adam_lr : F;
  adam_beta1 : F;
  adam_beta2 : F;
  adam_eps : F;
  adam_state : PerParam (option AdamState)
}.

Record World : Type := {
  np_random : RandomState;
  torch_rng : TorchGenerator;
  (** the global [N] *)
  N : Z;
  params : PerParam Param;
  optimizer_gen : SGD;
  optimizer_disc : Adam
}.

Definition set_np_random (s : RandomState) (w : World) : World :=
  {| np_random := s; torch_rng := torch_rng w; N := N w; params := params w;
     optimizer_gen := optimizer_gen w; optimizer_disc := optimizer_disc w |}.

Definition set_torch_rng (g : TorchGenerator) (w : World) : World :=
  {| np_random := np_random w; torch_rng := g; N := N w; params := params w;
     optimizer_gen := optimizer_gen w; optimizer_disc := optimizer_disc w |}.

Definition set_N (n : Z) (w : World) : World :=
  {| np_random := np_random w; torch_rng := torch_rng w; N := n;
     params := params w;
     optimizer_gen := optimizer_gen w; optimizer_disc := optimizer_disc w |}.

Definition set_params (ps : PerParam Param) (w : World) : World :=
  {| np_random := np_random w; torch_rng := torch_rng w; N := N w;
     params := ps;
     optimizer_gen := optimizer_gen w; optimizer_disc := optimizer_disc w |}.

Definition set_optimizer_gen (o : SGD) (w : World) : World :=
  {| np_random := np_random w; torch_rng := torch_rng w; N := N w;
     params := params w;
     optimizer_gen := o; optimizer_disc := optimizer_disc w |}.

Definition set_optimizer_disc (o : Adam) (w : World) : World :=
  {| np_random := np_random w; torch_rng := torch_rng w; N := N w;
     params := params w;
     optimizer_gen := optimizer_gen w; optimizer_disc := o |}.

Definition M (A : Type) : Type := PyM World A.

(** ** Data (cell 2) *)

(** [n] successive draws from a random source. *)
Fixpoint draws {St : Type} (draw : St -> F * St) (n : nat) (s : St)
  : vector * St :=
  match n with
  | O => ([], s)
  | S n' =>
      let (v, s1) := draw s in
      let (vs, s2) := draws draw n' s1 in
      (v :: vs, s2)
  end.

(** A [rows] x [cols] array filled row by row. *)
Fixpoint draw_rows {St : Type} (draw : St -> F * St) (rows cols : nat)
    (s : St) : matrix * St :=
  match rows with
  | O => ([], s)
  | S rows' =>
      let (r, s1) := draws draw cols s in
      let (rs, s2) := draw_rows draw rows' cols s1 in
      (r :: rs, s2)
  end.

(** The shapes that numpy can hold on a 64-bit platform: each dimension
    fits the index type [npy_intp], and so does the size of the array in
    bytes, 8 for each [float64] entry (a dimension below 1 counts as 1 in
    this product). *)
Definition npy_intp_max : Z := 2 ^ 63 - 1.

Definition within_numpy_limits (d0 d1 : Z) : bool :=
  ((- npy_intp_max - 1 <=? d0) && (d0 <=? npy_intp_max)
   && (- npy_intp_max - 1 <=? d1) && (d1 <=? npy_intp_max)
   && (8 * Z.max 1 d0 * Z.max 1 d1 <=? npy_intp_max))%Z.

(** [np.random.rand(d0, d1)] and [np.random.randn(d0, d1)]: numpy builds an
    array of the given shape, which it refuses when a dimension is negative
    and accepts when one is zero (the array is then empty).  An array is a
    list here and has no largest size: this is what the call does for a
    shape [within_numpy_limits] that the machine has the memory for, as
    the shapes of the notebook are (128 x N, 128 x 1 and 10000 x N);
    beyond these limits numpy raises as well, which is not modelled. *)
Definition np_random_fill (draw : RandomState -> F * RandomState)
    (d0 d1 : Z) : M matrix :=
  if ((d0 <? 0) || (d1 <? 0))%Z then
    raise (ValueError "negative dimensions are not allowed")
  else
    s <- gets np_random ;;
    let (a, s') := draw_rows draw (Z.to_nat d0) (Z.to_nat d1) s in
    modify (set_np_random s') ;;;
    ret a.

Definition np_random_randn : Z -> Z -> M matrix :=
  np_random_fill standard_normal.

Definition np_random_rand : Z -> Z -> M matrix :=
  np_random_fill random_sample.

Definition generate_gaussian (n_samples n_dim : Z) : M matrix :=
  np_random_randn n_samples n_dim.

Definition generate_uniform (n_samples n_dim : Z) : M matrix :=
  np_random_rand n_samples n_dim.

(** ** torch functions the notebook calls *)

(** [torch.tensor(a, dtype=torch.float32)]: a leaf that does not require
    grad. *)
Definition torch_tensor (a : matrix) : Var :=
  {| val := map (map float32) a; grad_fn := None |}.

(** [torch.ones((n, 1))] and [torch.zeros((n, 1))] *)
Definition torch_ones (n : Z) : matrix := repeat [fone] (Z.to_nat n).
Definition torch_zeros (n : Z) : matrix := repeat [fzero] (Z.to_nat n).

(** [torch.concat([a, b])] along dimension 0; the result requires grad when
    an argument does. *)
Definition torch_concat (a b : Var) : Var :=
  {| val := val a ++ val b;
     grad_fn :=
       match grad_fn a, grad_fn b with
       | None, None => None
       | _, _ =>
           Some (fun g => propagate a (firstn (length (val a)) g)
                          ++ propagate b (skipn (length (val a)) g))
       end |}.

Definition rows_have (k : nat) (m : matrix) : bool :=
  forallb (fun r => Nat.eqb (length r) k) m.

(** [F.linear(x, W, b) = x W^T + b] with [W] of shape [out, in]; its
    backward sends [g^T x] to [W], the column sums of [g] to [b] and [g W]
    to [x]. *)
Definition F_linear (grad_enabled : bool) (l : Linear) (x : Var) : M Var :=
  W <- gets (fun w => as_matrix (data (lookup (params w) (weight l)))) ;;
  b <- gets (fun w => as_vector (data (lookup (params w) (bias l)))) ;;
  let in_features := length (hd [] W) in
  if rows_have in_features (val x) then
    ret {| val :=
             map (fun r =>
                    map (fun wb => fadd (dot r (fst wb)) (snd wb))
                        (combine W b))
                 (val x);
           grad_fn :=
             if grad_enabled then
               Some (fun g =>
                 (weight l,
                  T2 (map (fun j => weighted_rows in_features
                                      (column j g) (val x))
                          (seq 0 (length W))))
                 :: (bias l,
                     T1 (map (fun j => fsum (column j g))
                             (seq 0 (length b))))
                 :: propagate x
                      (map (fun grow => weighted_rows in_features grow W) g))
             else None |}
  else
    raise (RuntimeError "mat1 and mat2 shapes cannot be multiplied").

Definition elementwise (grad_enabled : bool) (f : F -> F)
    (df : F -> F -> F -> F) (x : Var) : Var :=
  let out := map (map f) (val x) in
  {| val := out;
     grad_fn :=
       if grad_enabled then
         match grad_fn x with
         | Some k =>
             Some (fun g =>
               k (map (fun gxo =>
                         map (fun t => df (fst (fst t)) (snd (fst t)) (snd t))
                             (combine (combine (fst (fst gxo)) (snd (fst gxo)))
                                      (snd gxo)))
                      (combine (combine g (val x)) out)))
         | None => None
         end
       else None |}.

(** [F.leaky_relu] with its default [negative_slope=0.01] *)
Definition negative_slope : F := lit (1 # 100).

Definition F_leaky_relu (grad_enabled : bool) : Var -> Var :=
  elementwise grad_enabled
    (fun v => if fltb fzero v then v else fmul v negative_slope)
    (fun g v _ => if fltb fzero v then g else fmul g negative_slope).

(** [F.sigmoid] *)
Definition F_sigmoid (grad_enabled : bool) : Var -> Var :=
  elementwise grad_enabled
    (fun v => fdiv fone (fadd fone (fexp (fneg v))))
    (fun g _ o => fmul (fmul g (fsub fone o)) o).

Fixpoint same_shape (a b : matrix) : bool :=
  match a, b with
  | [], [] => true
  | r :: a', s :: b' => Nat.eqb (length r) (length s) && same_shape a' b'
  | _, _ => false
  end.

(** [nn.BCELoss()] with its default mean reduction: the logarithms are
    clamped below at -100, and the backward divides by
    [max((1 - x) * x, 1e-12)]. *)
Definition bce_elem (v t : F) : F :=
  fsub (fmul (fsub t fone) (fmax (flog (fsub fone v)) (lit (-100 # 1))))
       (fmul t (fmax (flog v) (lit (-100 # 1)))).

Definition bce_elem_grad (g n v t : F) : F :=
  fdiv (fmul g (fdiv (fsub v t)
                     (fmax (fmul (fsub fone v) v)
                           (lit (1 # 1000000000000)))))
       n.

Definition criterion (input : Var) (target : matrix) : M Loss :=
  if same_shape (val input) target then
    let n := lit (inject_Z (Z.of_nat (length (concat (val input))))) in
    ret {| lval :=
             fdiv (fsum (map (fun vt => bce_elem (fst vt) (snd vt))
                             (combine (concat (val input)) (concat target))))
                  n;
           lgrad_fn :=
             match grad_fn input with
             | Some k =>
                 Some (fun g =>
                   k (map (fun rs =>
                             map (fun vt => bce_elem_grad g n (fst vt) (snd vt))
                                 (combine (fst rs) (snd rs)))
                          (combine (val input) target)))
             | None => None
             end |}
  else
    raise (ValueError
             "Using a target size that is different to the input size").

(** ** Model (cells 4 and 5) *)

Definition Generator_forward (grad_enabled : bool) (g : Generator) (x : Var)
  : M Var :=
  x <- F_linear grad_enabled (Generator_fc g) x ;;
  ret (F_leaky_relu grad_enabled x).

Definition Discriminator_forward (grad_enabled : bool) (d : Discriminator)
    (x : Var) : M Var :=
  x <- F_linear grad_enabled (Discriminator_fc d) x ;;
  ret (F_sigmoid grad_enabled x).

(** ** Gradients and optimizers *)

(** What [backward] does at a leaf: the first gradient is stored, a later
    one is added to what is there. *)
Definition accumulate (acc : option tensor) (g : tensor) : option tensor :=
  match acc with
  | None => Some g
  | Some old => Some (tensor_add old g)
  end.

Definition accumulate_grads (gs : Grads) (ps : PerParam Param)
  : PerParam Param :=
  fold_left
    (fun ps pg =>
       update ps (fst pg)
         {| data := data (lookup ps (fst pg));
            grad := accumulate (grad (lookup ps (fst pg))) (snd pg) |})
    gs ps.

(** [Tensor.backward()] on a loss *)
Definition backward (l : Loss) : M unit :=
  match lgrad_fn l with
  | Some k =>
      modify (fun w => set_params (accumulate_grads (k fone) (params w)) w)
  | None =>
      raise (RuntimeError
               "element 0 of tensors does not require grad")
  end.

(** [Module.zero_grad()]: the gradients of the module's parameters are
    dropped. *)
Definition clear_grads (ids : list ParamId) (ps : PerParam Param)
  : PerParam Param :=
  fold_left
    (fun ps p => update ps p {| data := data (lookup ps p); grad := None |})
    ids ps.

Definition zero_grad (ids : list ParamId) : M unit :=
  modify (fun w => set_params (clear_grads ids (params w)) w).

(** [SGD.step()] without momentum or weight decay: [p -= lr * p.grad] for
    each parameter of the optimizer that has a gradient. *)
Definition sgd_update (lr : F) (p : Param) : Param :=
  match grad p with
  | Some g =>
      {| data := tzip_ (fun v d => fsub v (fmul lr d)) (data p) g;
         grad := grad p |}
  | None => p
  end.

Definition SGD_step (o : SGD) (ps : PerParam Param) : PerParam Param :=
  fold_left (fun ps p => update ps p (sgd_update (sgd_lr o) (lookup ps p)))
            (sgd_params o) ps.

Definition optimizer_gen_step : M unit :=
  modify (fun w => set_params (SGD_step (optimizer_gen w) (params w)) w).

(** [Adam.step()] with torch's defaults (no weight decay, no amsgrad). *)
Definition adam_moments (o : Adam) (st : AdamState) (g : tensor)
  : AdamState :=
  {| step_count := S (step_count st);
     exp_avg :=
       tzip_ (fun m d => fadd m (fmul (fsub d m) (fsub fone (adam_beta1 o))))
             (exp_avg st) g;
     exp_avg_sq :=
       tzip_ (fun v d => fadd (fmul v (adam_beta2 o))
                              (fmul (fsub fone (adam_beta2 o)) (fmul d d)))
             (exp_avg_sq st) g |}.

Definition adam_direction (o : Adam) (st : AdamState) : tensor :=
  let bias_correction1 := fsub fone (fpow (adam_beta1 o) (step_count st)) in
  let bias_correction2 := fsub fone (fpow (adam_beta2 o) (step_count st)) in
  let step_size := fdiv (adam_lr o) bias_correction1 in
  tzip_ (fun m v =>
           fmul step_size
                (fdiv m (fadd (fdiv (fsqrt v) (fsqrt bias_correction2))
                              (adam_eps o))))
        (exp_avg st) (exp_avg_sq st).

Definition adam_update (o : Adam) (p : ParamId)
    (acc : PerParam Param * PerParam (option AdamState))
  : PerParam Param * PerParam (option AdamState) :=
  let (ps, sts) := acc in
  match grad (lookup ps p) with
  | Some g =>
      let st0 :=
        match lookup sts p with
        | Some st => st
        | None => {| step_count := 0;
                     exp_avg := zeros_like (data (lookup ps p));
                     exp_avg_sq := zeros_like (data (lookup ps p)) |}
        end in
      let st := adam_moments o st0 g in
      (update ps p
              {| data := tzip_ fsub (data (lookup ps p)) (adam_direction o st);
                 grad := grad (lookup ps p) |},
       update sts p (Some st))
  | None => acc
  end.

Definition Adam_step (o : Adam) (ps : PerParam Param)
  : PerParam Param * Adam :=
  let r := fold_left (fun acc p => adam_update o p acc) (adam_params o)
                     (ps, adam_state o) in
  (fst r,
   {| adam_params := adam_params o; adam_lr := adam_lr o;
      adam_beta1 := adam_beta1 o; adam_beta2 := adam_beta2 o;
      adam_eps := adam_eps o; adam_state := snd r |}).

Definition optimizer_disc_step : M unit :=
  modify (fun w =>
            let r := Adam_step (optimizer_disc w) (params w) in
            set_optimizer_disc (snd r) (set_params (fst r) w)).

(** ** Set-up (cell 7) *)

(** [nn.Linear(in_features, out_features)]: the weight, of shape
    [out, in], is drawn by [kaiming_uniform_(a=sqrt(5))] and then the bias
    uniformly in [-1/sqrt(in), 1/sqrt(in)], both from torch's generator. *)
Definition kaiming_bound (fan_in : Z) : F :=
  let gain := fsqrt (fdiv (lit 2) (fadd fone (fmul (fsqrt (lit 5))
                                                   (fsqrt (lit 5))))) in
  fmul (fsqrt (lit 3)) (fdiv gain (fsqrt (lit (inject_Z fan_in)))).

Definition bias_bound (fan_in : Z) : F :=
  if (0 <? fan_in)%Z then fdiv fone (fsqrt (lit (inject_Z fan_in)))
  else fzero.

Definition reset_parameters (in_features out_features : Z)
    (g : TorchGenerator) : matrix * vector * TorchGenerator :=
  let (W, g1) :=
    draw_rows (uniform_ (fneg (kaiming_bound in_features))
                        (kaiming_bound in_features))
              (Z.to_nat out_features) (Z.to_nat in_features) g in
  let (b, g2) :=
    draws (uniform_ (fneg (bias_bound in_features))
                    (bias_bound in_features))
          (Z.to_nat out_features) g1 in
  (W, b, g2).

Definition Linear_init (l : Linear) (in_features out_features : Z) : M unit :=
  if ((in_features <? 0) || (out_features <? 0))%Z then
    raise (RuntimeError "Trying to create tensor with negative dimension")
  else
    g <- gets torch_rng ;;
    let '(W, b, g') := reset_parameters in_features out_features g in
    modify (set_torch_rng g') ;;;
    modify (fun w =>
              set_params
                (update (update (params w) (weight l)
                                {| data := T2 W; grad := None |})
                        (bias l) {| data := T1 b; grad := None |})
                w).

(** The cell, with the literal [10] that it assigns to [N] as the
    argument. *)
Definition cell7_with (n : Z) : M unit :=
  modify (set_N n) ;;;
  (* generator = Generator(in_feat=N, out_feat=1) *)
  Linear_init (Generator_fc generator) n 1 ;;;
  (* discriminator = Discriminator(in_feat=1) *)
  Linear_init (Discriminator_fc discriminator) 1 1 ;;;
  modify (set_optimizer_gen
            {| sgd_params := Generator_parameters generator;
               sgd_lr := lit (1 # 100) |}) ;;;
  modify (set_optimizer_disc
            {| adam_params := Discriminator_parameters discriminator;
               adam_lr := lit (1 # 100);
               adam_beta1 := lit (9 # 10);
               adam_beta2 := lit (999 # 1000);
               adam_eps := lit (1 # 100000000);
               adam_state := tabulate (fun _ => None) |}).

Definition cell7 : M unit := cell7_with 10.

(** ** Train (cell 8) *)

(** What [loss_D] and [loss_G] can hold: a Python float, or the bound
    method [t.item] of a 0-dim tensor [t]. *)
Inductive PyObj : Type :=
| PyFloat (v : F)
| Tensor_item (self : Loss).

(** Calling the object with no argument, where it is callable. *)
Definition call (o : PyObj) : option PyObj :=
  match o with
  | Tensor_item t => Some (PyFloat (lval t))
  | PyFloat _ => None
  end.

Definition BATCH_SZ : Z := 128.

(** The locals of the loop body up to [loss_1.backward()]. *)
Record DiscLocals : Type := {
  noise : Var;
  real : Var;
  created : Var;
  x : Var;
  y : matrix;
  out1 : Var;
  loss_1 : Loss
}.

(** The locals of the rest of the body up to [loss_2.backward()]. *)
Record GenLocals : Type := {
  out2 : Var;
  loss_2 : Loss
}.

(** Lines 128-142: from [discriminator.zero_grad()] to
    [loss_1.backward()]. *)
Definition discriminator_pass : M DiscLocals :=
  zero_grad (Discriminator_parameters discriminator) ;;;
  (* sample minibatch of noise and real *)
  n <- gets N ;;
  a <- generate_uniform BATCH_SZ n ;;
  let noise := torch_tensor a in
  a <- generate_gaussian BATCH_SZ 1 ;;
  let real := torch_tensor a in
  (* get X and y *)
  created <- Generator_forward true generator noise ;;
  let x := torch_concat real (detach created) in
  let y := torch_ones BATCH_SZ ++ torch_zeros BATCH_SZ in
  (* update discriminator *)
  out1 <- Discriminator_forward true discriminator x ;;
  loss_1 <- criterion out1 y ;;
  backward loss_1 ;;;
  ret {| noise := noise; real := real; created := created; x := x; y := y;
         out1 := out1; loss_1 := loss_1 |}.

(** Lines 148-152: from the second [discriminator.zero_grad()] to
    [loss_2.backward()]. *)
Definition generator_pass (created : Var) : M GenLocals :=
  zero_grad (Discriminator_parameters discriminator) ;;;
  out2 <- Discriminator_forward true discriminator created ;;
  loss_2 <- criterion out2 (torch_zeros BATCH_SZ) ;;
  backward loss_2 ;;;
  ret {| out2 := out2; loss_2 := loss_2 |}.

(** One turn of the [for] loop. *)
Definition train_body (loss_D loss_G : list PyObj)
  : M (list PyObj * list PyObj) :=
  d <- discriminator_pass ;;
  optimizer_disc_step ;;;
  (* loss_D.append(loss_1.item) *)
  let loss_D := loss_D ++ [Tensor_item (loss_1 d)] in
  g <- generator_pass (created d) ;;
  optimizer_gen_step ;;;
  (* loss_G.append(loss_2.item) *)
  let loss_G := loss_G ++ [Tensor_item (loss_2 g)] in
  ret (loss_D, loss_G).

Fixpoint train_loop (n : nat) (loss_D loss_G : list PyObj)
  : M (list PyObj * list PyObj) :=
  match n with
  | O => ret (loss_D, loss_G)
  | S n' =>
      r <- train_body loss_D loss_G ;;
      train_loop n' (fst r) (snd r)
  end.

(** [range(epochs)] is empty when [epochs] is not positive. *)
Definition train (epochs : Z) : M (list PyObj * list PyObj) :=
  train_loop (Z.to_nat epochs) [] [].

(** The same loop with the locals of every turn kept, to state what each
    iteration does. *)
Definition iteration : M (DiscLocals * GenLocals) :=
  d <- discriminator_pass ;;
  optimizer_disc_step ;;;
  g <- generator_pass (created d) ;;
  optimizer_gen_step ;;;
  ret (d, g).

Fixpoint iterations (n : nat) : M (list (DiscLocals * GenLocals)) :=
  match n with
  | O => ret []
  | S n' =>
      l <- iteration ;;
      ls <- iterations n' ;;
      ret (l :: ls)
  end.

(** ** Evaluate (cell 11) *)

(** The cell up to [generated_samples], with its literal [10000] as the
    argument; the two statements are inside [with torch.no_grad()]. *)
Definition evaluate (sample_count : Z) : M Var :=
  n <- gets N ;;
  a <- np_random_rand sample_count n ;;
  let noise := torch_tensor a in
  out <- Generator_forward false generator noise ;;
  ret (detach out).

Definition cell11 : M Var := evaluate 10000.

(** ** Notions used to state what the cells do *)

(** The gradient that a list of contributions adds up to at parameter [p],
    on top of [init]. *)
Definition contrib (p : ParamId) (gs : Grads) (init : option tensor)
  : option tensor :=
  fold_left
    (fun acc pg =>
       if ParamId_eqb (fst pg) p then accumulate acc (snd pg) else acc)
    gs init.

(** The gradient of a loss with respect to a parameter, as a backward pass
    from the loss computes it ([None]: the loss does not reach it). *)
Definition grad_wrt (l : Loss) (p : ParamId) : option tensor :=
  match lgrad_fn l with
  | Some k => contrib p (k fone) None
  | None => None
  end.

(** [g1 + g2 + ... + gn], added in this order. *)
Definition sum_tensors (gs : list tensor) : option tensor :=
  match gs with
  | [] => None
  | g :: gs' => Some (fold_left tensor_add gs' g)
  end.

(** The entries of [F.sigmoid]'s result. *)
Definition sigmoid (v : F) : F := fdiv fone (fadd fone (fexp (fneg v))).

(** [v] is neither below 0 nor above 1. *)
Definition within_0_1 (v : F) : Prop :=
  fltb v fzero = false /\ fltb fone v = false.

(** What the sigmoid needs of a rounded arithmetic to stay within its
    bounds: adding an exponential to 1 does not give less than 1, and the
    quotient of 1 by a value that is not less than 1 is neither less than
    0 nor more than 1.  IEEE arithmetic rounds monotonically and gives
    this, with any exponential that returns no negative value. *)
Definition sound_rounding : Prop :=
  (forall v : F, fltb (fadd fone (fexp v)) fone = false)
  /\ (forall d : F, fltb d fone = false -> within_0_1 (fdiv fone d)).

(** What [.grad] holds once the gradients [gs] have reached the parameter,
    in this order, when it held [init] before. *)
Definition accumulate_all (init : option tensor) (gs : list tensor)
  : option tensor :=
  fold_left accumulate gs init.

(** The world that [nn.Linear(i, o)] leaves when it does not raise. *)
Definition initialised (l : Linear) (i o : Z) (w : World) : World :=
  let '(W, b, g') := reset_parameters i o (torch_rng w) in
  set_params
    (update (update (params w) (weight l) {| data := T2 W; grad := None |})
            (bias l) {| data := T1 b; grad := None |})
    (set_torch_rng g' w).

(** [Tensor.shape] of a 2-D tensor with a [grad_fn] *)
Definition size (v : Var) : list nat := shape (T2 (val v)).

(** The graph under a [grad_fn] ends in exactly the leaves [ids]. *)
Definition tracked {X : Type} (gf : option (X -> Grads))
    (ids : list ParamId) : Prop :=
  exists k, gf = Some k /\ forall g, map fst (k g) = ids.

Definition data_shape (w : World) (p : ParamId) : list nat :=
  shape (data (lookup (params w) p)).

(** The state that the set-up cell establishes and training keeps: the
    shapes of the four parameters and the parameters each optimizer was
    given. *)
Record ready (w : World) : Prop := {
  ready_N : (0 <= N w)%Z;
  ready_generator_weight :
    data_shape w generator_fc_weight = [1%nat; Z.to_nat (N w)];
  ready_generator_bias : data_shape w generator_fc_bias = [1%nat];
  ready_discriminator_weight :
    data_shape w discriminator_fc_weight = [1%nat; 1%nat];
  ready_discriminator_bias : data_shape w discriminator_fc_bias = [1%nat];
  ready_optimizer_gen :
    sgd_params (optimizer_gen w) = Generator_parameters generator;
  ready_optimizer_disc :
    adam_params (optimizer_disc w) = Discriminator_parameters discriminator
}.

(** The noise and real batches that [t] successive iterations of [train]
    draw from numpy's state [s] when the noise dimension is [n], with the
    state they leave: in each iteration the noise batch is drawn first. *)
Fixpoint batches (n : Z) (t : nat) (s : RandomState)
  : list (Var * Var) * RandomState :=
  match t with
  | O => ([], s)
  | S t' =>
      let (a0, s1) :=
        draw_rows random_sample (Z.to_nat BATCH_SZ) (Z.to_nat n) s in
      let (a1, s2) :=
        draw_rows standard_normal (Z.to_nat BATCH_SZ) (Z.to_nat 1) s1 in
      let (bs, s3) := batches n t' s2 in
      ((torch_tensor a0, torch_tensor a1) :: bs, s3)
  end.

(** The state from which [Adam.step()] updates parameter [p]: the one it
    keeps for [p], or zero moments at the first step. *)
Definition adam_state_before (o : Adam) (ps : PerParam Param) (p : ParamId)
  : AdamState :=
  match lookup (adam_state o) p with
  | Some st => st
  | None => {| step_count := 0;
               exp_avg := zeros_like (data (lookup ps p));
               exp_avg_sq := zeros_like (data (lookup ps p)) |}
  end.

(** The worlds that [optimizer_disc.step()] and [optimizer_gen.step()]
    leave. *)
Definition after_optimizer_disc_step (w : World) : World :=
  set_optimizer_disc (snd (Adam_step (optimizer_disc w) (params w)))
    (set_params (fst (Adam_step (optimizer_disc w) (params w))) w).

Definition after_optimizer_gen_step (w : World) : World :=
  set_params (SGD_step (optimizer_gen w) (params w)) w.

(** The number of [Adam.step()] updates that parameter [p] has had. *)
Definition adam_steps (o : Adam) (p : ParamId) : nat :=
  match lookup (adam_state o) p with
  | Some st => step_count st
  | None => 0
  end.

End Model.

(** ** A fixed-point interpretation, to run the cells

    Rationals rounded down to a multiple of [2^-40] after every operation,
    the exponential by its Taylor polynomial of degree 12, the logarithm by
    the first terms of [2 artanh((v - 1) / (v + 1))] after scaling by a
    power of two, the square root by Newton steps, and counters as random sources.  It serves to evaluate
    the definitions above on concrete inputs; no theorem about the cells
    for every interpretation depends on it. *)

Module FixedPoint.

Definition rnd (v : Q) : Q :=
  Qred (Qfloor (v * inject_Z (2 ^ 40)) # (2 ^ 40)).

(** [1 + v/k (1 + v/(k+1) (... (1 + v/(k+n-1))))] *)
Fixpoint exp_horner (n : nat) (k : Z) (v : Q) : Q :=
  match n with
  | O => 1
  | S n' => rnd (1 + v / inject_Z k * exp_horner n' (k + 1) v)
  end.

Definition qexp (v : Q) : Q := exp_horner 12 1 v.

(** [z (1/k + z2 (1/(k+2) + z2 (...)))], with [z2 = z * z] *)
Fixpoint artanh_horner (n : nat) (k : Z) (z2 : Q) : Q :=
  match n with
  | O => 0
  | S n' => rnd (1 / inject_Z k + z2 * artanh_horner n' (k + 2) z2)
  end.

Definition log_near_one (v : Q) : Q :=
  let z := rnd ((v - 1) / (v + 1)) in
  rnd (2 * z * artanh_horner 24 1 (rnd (z * z))).

(** [log v = log (v * 2^k) - k log 2], with [v * 2^k] brought into
    [[1/2, 2]]. *)
Fixpoint log_scaled (n : nat) (v acc : Q) : Q :=
  match n with
  | O => rnd (acc + log_near_one v)
  | S n' =>
      if Qle_bool 2 v then log_scaled n' (v / 2) (rnd (acc + log_near_one 2))
      else if Qle_bool v (1 # 2)
           then log_scaled n' (v * 2) (rnd (acc - log_near_one 2))
           else rnd (acc + log_near_one v)
  end.

Definition qlog (v : Q) : Q :=
  if Qle_bool v 0 then - (1000 # 1) else log_scaled 64 (Qred v) 0.

Fixpoint newton_sqrt (n : nat) (v r : Q) : Q :=
  match n with
  | O => r
  | S n' => if Qle_bool r 0 then 0
            else newton_sqrt n' v (rnd ((r + v / r) / 2))
  end.

Definition qsqrt (v : Q) : Q :=
  if Qle_bool v 0 then 0 else newton_sqrt 60 v (rnd ((v + 1) / 2)).

#[export] Instance Q_Scalar : Scalar Q := {
  fzero := 0;
  fone := 1;
  fadd := fun a b => rnd (a + b);
  fsub := fun a b => rnd (a - b);
  fmul := fun a b => rnd (a * b);
  fdiv := fun a b => rnd (a / b);
  fneg := fun a => rnd (- a);
  fexp := qexp;
  flog := qlog;
  fsqrt := qsqrt;
  fltb := fun a b => negb (Qle_bool b a);
  lit := rnd;
  float32 := fun a => a
}.

(** The same interpretation with the exponential of a negative argument
    taken as the reciprocal of the exponential of its opposite, which
    keeps it from being negative. *)
Definition qexp_reciprocal (v : Q) : Q :=
  if Qle_bool 0 v then qexp v else rnd (1 / qexp (- v)).

Definition Q_Scalar_reciprocal : Scalar Q := {|
  fzero := 0;
  fone := 1;
  fadd := fun a b => rnd (a + b);
  fsub := fun a b => rnd (a - b);
  fmul := fun a b => rnd (a * b);
  fdiv := fun a b => rnd (a / b);
  fneg := fun a => rnd (- a);
  fexp := qexp_reciprocal;
  flog := qlog;
  fsqrt := qsqrt;
  fltb := fun a b => negb (Qle_bool b a);
  lit := rnd;
  float32 := fun a => a
|}.

(** The [k]-th draw is [(k mod 8) / 8] for the uniform source,
    [(k mod 9 - 4) / 4] for the normal one and the middle of the interval
    shifted by a quarter of its width times [k mod 3 - 1] for torch. *)
#[export] Instance counter_RandomSource : RandomSource Q := {
  RandomState := Z;
  random_sample := fun k => (Qred (inject_Z (k mod 8) / 8), (k + 1)%Z);
  standard_normal := fun k => (Qred (inject_Z (k mod 9 - 4) / 4), (k + 1)%Z);
  TorchGenerator := Z;
  uniform_ := fun lo hi k =>
    (Qred ((lo + hi) / 2 + (hi - lo) * inject_Z (k mod 3 - 1) / 4),
     (k + 1)%Z)
}.

Definition no_param : @Param Q :=
  {| data := T0 0; grad := None |}.

(** A world in which nothing has been set up yet. *)
Definition blank (seed_np seed_torch : Z) : World :=
  {| np_random := seed_np; torch_rng := seed_torch; N := 0;
     params := tabulate (fun _ => no_param);
     optimizer_gen := {| sgd_params := []; sgd_lr := 0 |};
     optimizer_disc :=
       {| adam_params := []; adam_lr := 0; adam_beta1 := 0; adam_beta2 := 0;
          adam_eps := 0; adam_state := tabulate (fun _ => None) |} |}.

(** After the set-up cell and two iterations of [train]: what
    [generator.fc.bias.grad] holds (it is what the second
    [optimizer_gen.step()] has applied), and the gradients of the first
    and of the second [loss_2] with respect to this bias. *)
Definition second_step
  : option (option (@tensor Q) * option (@tensor Q) * option (@tensor Q)) :=
  match bind cell7 (fun _ => iterations 2) (blank 0 0) with
  | Ok ([l1; l2], w) =>
      Some (grad (lookup (params w) generator_fc_bias),
            grad_wrt (loss_2 (snd l1)) generator_fc_bias,
            grad_wrt (loss_2 (snd l2)) generator_fc_bias)
  | _ => None
  end.

(** After the set-up cell and a first call [train(1)]: a second run, of
    two iterations.  What [generator.fc.bias.grad] holds when the run
    ends (it is what the [optimizer_gen.step()] of its second iteration
    has applied), and the gradients of the run's first and second
    [loss_2] with respect to this bias. *)
Definition second_run
  : option (option (@tensor Q) * option (@tensor Q) * option (@tensor Q)) :=
  match bind cell7 (fun _ => bind (train 1) (fun _ => iterations 2))
             (blank 0 0) with
  | Ok ([l1; l2], w) =>
      Some (grad (lookup (params w) generator_fc_bias),
            grad_wrt (loss_2 (snd l1)) generator_fc_bias,
            grad_wrt (loss_2 (snd l2)) generator_fc_bias)
  | _ => None
  end.

(** The shape of what the evaluation cell returns for [sample_count]
    samples, right after the set-up cell. *)
Definition evaluated_size (sample_count : Z) : option (list nat) :=
  match bind cell7 (fun _ => evaluate sample_count) (blank 0 0) with
  | Ok (v, _) => Some (size v)
  | Raise _ => None
  end.

(** The world after the set-up cell and [train(1)] from [blank 0 0], with
    the two random sources seeded again as they were at the start. *)
Definition reseeded : World :=
  match bind cell7 (fun _ => train 1) (blank 0 0) with
  | Ok (_, w) => set_np_random 0%Z (set_torch_rng 0%Z w)
  | Raise _ => blank 0 0
  end.

(** The world that the set-up cell leaves from [blank 0 0]. *)
Definition fresh : World :=
  match cell7 (blank 0 0) with
  | Ok (_, w) => w
  | Raise _ => blank 0 0
  end.

End FixedPoint.

(** ** A binary32 interpretation

    IEEE 754 single precision, the [torch.float32] of the notebook's
    tensors: the operations of the Standard Library's [SpecFloat] with 24
    bits of precision and exponents below 128, rounding to nearest even.
    The exponential and the logarithm are not IEEE operations; they are
    computed with these operations, the exponential by scaling and
    squaring ([exp v = (exp (v / 256)) ^ 256], the inner one by its Taylor
    polynomial of degree 10, and the reciprocal of [exp (- v)] for a
    negative [v]), the logarithm from the binary exponent and the first
    terms of [2 artanh((m - 1) / (m + 1))]. *)

Module Binary32.

Definition float : Type := SpecFloat.spec_float.

Definition prec : Z := 24.
Definition emax : Z := 128.

Definition add : float -> float -> float := SpecFloat.SFadd prec emax.
Definition sub : float -> float -> float := SpecFloat.SFsub prec emax.
Definition mul : float -> float -> float := SpecFloat.SFmul prec emax.
Definition div : float -> float -> float := SpecFloat.SFdiv prec emax.
Definition opp : float -> float := SpecFloat.SFopp.
Definition sqrt : float -> float := SpecFloat.SFsqrt prec emax.
Definition ltb : float -> float -> bool := SpecFloat.SFltb.

(** The float nearest to an integer, to a rational. *)
Definition of_Z (z : Z) : float :=
  SpecFloat.binary_normalize prec emax z 0 false.

Definition of_Q (q : Q) : float :=
  div (of_Z (Qnum q)) (of_Z (Z.pos (Qden q))).

Definition zero : float := of_Z 0.
Definition one : float := of_Z 1.

(** [1 + v/k (1 + v/(k+1) (... (1 + v/(k+n-1))))] *)
Fixpoint taylor (n : nat) (k : Z) (v : float) : float :=
  match n with
  | O => one
  | S n' => add one (mul (div v (of_Z k)) (taylor n' (k + 1) v))
  end.

(** [v ^ (2 ^ n)] *)
Fixpoint squarings (n : nat) (v : float) : float :=
  match n with
  | O => v
  | S n' => squarings n' (mul v v)
  end.

Definition exp_scaled (v : float) : float :=
  squarings 8 (taylor 10 1 (div v (of_Z 256))).

Definition exp (v : float) : float :=
  if ltb v zero then div one (exp_scaled (opp v)) else exp_scaled v.

(** [1/k + z2 (1/(k+2) + z2 (...))] *)
Fixpoint artanh_series (n : nat) (k : Z) (z2 : float) : float :=
  match n with
  | O => zero
  | S n' => add (div one (of_Z k)) (mul z2 (artanh_series n' (k + 2) z2))
  end.

Definition log_near_one (v : float) : float :=
  let z := div (sub v one) (add v one) in
  mul (mul (of_Z 2) z) (artanh_series 12 1 (mul z z)).

(** [log (m * 2^e) = log (2 m) + (e - 1) log 2], with [m] in [[1/2, 1)]. *)
Definition log (v : float) : float :=
  match v with
  | SpecFloat.S754_nan => SpecFloat.S754_nan
  | SpecFloat.S754_infinity false => v
  | SpecFloat.S754_infinity true => SpecFloat.S754_nan
  | SpecFloat.S754_zero _ => SpecFloat.S754_infinity true
  | SpecFloat.S754_finite true _ _ => SpecFloat.S754_nan
  | SpecFloat.S754_finite false _ _ =>
      let (m, e) := SpecFloat.SFfrexp prec emax v in
      add (log_near_one (mul (of_Z 2) m))
          (mul (of_Z (e - 1)) (log_near_one (of_Z 2)))
  end.

#[export] Instance Binary32_Scalar : Scalar float := {
  fzero := zero;
  fone := one;
  fadd := add;
  fsub := sub;
  fmul := mul;
  fdiv := div;
  fneg := opp;
  fexp := exp;
  flog := log;
  fsqrt := sqrt;
  fltb := ltb;
  lit := of_Q;
  float32 := fun a => a
}.

(** Counters as random sources: the [k]-th draw is [(k mod 8) / 8] for
    the uniform source, [(k mod 9 - 4) / 4] for the normal one and
    [lo + (hi - lo) (k mod 4) / 4] for torch. *)
#[export] Instance counters : RandomSource float := {
  RandomState := Z;
  random_sample := fun k => (of_Q (k mod 8 # 8), (k + 1)%Z);
  standard_normal := fun k => (of_Q (k mod 9 - 4 # 4), (k + 1)%Z);
  TorchGenerator := Z;
  uniform_ := fun lo hi k =>
    (add lo (mul (sub hi lo) (of_Q (k mod 4 # 4))), (k + 1)%Z)
}.

(** A world whose discriminator has weight 1 and bias 0: the
    pre-activation of a row [[v]] is [v] itself. *)
Definition identity_discriminator : World :=
  {| np_random := 0%Z; torch_rng := 0%Z; N := 1;
     params :=
       {| at_generator_fc_weight := {| data := T2 [[zero]]; grad := None |};
          at_generator_fc_bias := {| data := T1 [zero]; grad := None |};
          at_discriminator_fc_weight :=
            {| data := T2 [[one]]; grad := None |};
          at_discriminator_fc_bias :=
            {| data := T1 [zero]; grad := None |} |};
     optimizer_gen :=
       {| sgd_params := Generator_parameters generator;
          sgd_lr := of_Q (1 # 100) |};
     optimizer_disc :=
       {| adam_params := Discriminator_parameters discriminator;
          adam_lr := of_Q (1 # 100); adam_beta1 := of_Q (9 # 10);
          adam_beta2 := of_Q (999 # 1000);
          adam_eps := of_Q (1 # 100000000);
          adam_state := tabulate (fun _ => None) |} |}.

(** The pre-activations [self.fc(x)] and the outputs of this
    discriminator on the batch whose rows are [[v]] for [v] in [vs]. *)
Definition preactivations (vs : list float) : option (@matrix float) :=
  match F_linear false (Discriminator_fc discriminator)
          (torch_tensor (map (fun v => [v]) vs)) identity_discriminator with
  | Ok (out, _) => Some (val out)
  | Raise _ => None
  end.

Definition outputs (vs : list float) : option (@matrix float) :=
  match Discriminator_forward false discriminator
          (torch_tensor (map (fun v => [v]) vs)) identity_discriminator with
  | Ok (out, _) => Some (val out)
  | Raise _ => None
  end.

End Binary32.

(** * Properties *)

Unset Implicit Arguments.

Section Proofs.

Context {F : Type} {SF : Scalar F} {RS : RandomSource F}.

Local Abbreviation vector := (@vector F).
Local Abbreviation matrix := (@matrix F).
Local Abbreviation tensor := (@tensor F).
Local Abbreviation Var := (@Var F).
Local Abbreviation Loss := (@Loss F).
Local Abbreviation Param := (@Param F).
Local Abbreviation World := (@World F RS).
Local Abbreviation M := (@M F RS).

(** ** The monad and the parameter tables *)

Lemma bind_Ok (A B : Type) (m : M A) (k : A -> M B) (w w' : World) (a : A) :
  m w = Ok (a, w') -> bind m k w = k a w'.
Proof. intros E. unfold bind. now rewrite E. Qed.

Lemma ParamId_eqb_eq (p q : ParamId) : ParamId_eqb p q = true <-> p = q.
Proof. destruct p, q; simpl; split; intros H; congruence. Qed.

Lemma ParamId_eqb_refl (p : ParamId) : ParamId_eqb p p = true.
Proof. now destruct p. Qed.

Lemma ParamId_eqb_neq (p q : ParamId) : p <> q -> ParamId_eqb p q = false.
Proof.
  intros H. destruct (ParamId_eqb p q) eqn:E; auto.
  apply ParamId_eqb_eq in E. contradiction.
Qed.

Lemma lookup_update (A : Type) (m : PerParam A) (p q : ParamId) (v : A) :
  lookup (update m p v) q = if ParamId_eqb p q then v else lookup m q.
Proof. now destruct q. Qed.

Lemma lookup_update_other (A : Type) (m : PerParam A) (p q : ParamId)
    (v : A) :
  p <> q -> lookup (update m p v) q = lookup m q.
Proof. intros H. now rewrite lookup_update, ParamId_eqb_neq. Qed.

(** ** Shapes *)

Lemma vzip__length (f : F -> F -> F) (a b : vector) :
  length (vzip_ f a b) = length a.
Proof.
  revert b. induction a as [|v a IH]; intros [|u b]; simpl; auto.
Qed.

Lemma mzip__length (f : F -> F -> F) (a b : matrix) :
  length (mzip_ f a b) = length a.
Proof.
  revert b. induction a as [|r a IH]; intros [|s b]; simpl; auto.
Qed.

Lemma mzip__hd (f : F -> F -> F) (a b : matrix) :
  length (hd [] (mzip_ f a b)) = length (hd [] a).
Proof.
  destruct a as [|r a], b as [|s b]; simpl; auto using vzip__length.
Qed.

Lemma shape_tzip_ (f : F -> F -> F) (a b : tensor) :
  shape (tzip_ f a b) = shape a.
Proof.
  destruct a, b; simpl; auto.
  - now rewrite vzip__length.
  - now rewrite mzip__length, mzip__hd.
Qed.

Lemma shape_row (t : tensor) (k : nat) :
  shape t = [1%nat; k] -> exists row : vector, t = T2 [row] /\ length row = k.
Proof.
  destruct t as [v|v|m]; simpl; try discriminate.
  destruct m as [|row [|r m]]; simpl; try discriminate.
  intros H. exists row. split; [reflexivity | now injection H].
Qed.

Lemma shape_single (t : tensor) :
  shape t = [1%nat] -> exists b, t = T1 [b].
Proof.
  destruct t as [v|v|m]; simpl; try discriminate.
  destruct v as [|b [|c v]]; simpl; try discriminate.
  intros _. now exists b.
Qed.

Lemma rows_have_Forall (k : nat) (m : matrix) :
  rows_have k m = true <-> Forall (fun r : vector => length r = k) m.
Proof.
  unfold rows_have. rewrite forallb_forall, Forall_forall.
  split; intros H r Hr; specialize (H r Hr); now apply Nat.eqb_eq.
Qed.

Lemma same_shape_columns (a b : matrix) :
  Forall (fun r : vector => length r = 1%nat) a ->
  Forall (fun r : vector => length r = 1%nat) b ->
  length a = length b ->
  same_shape a b = true.
Proof.
  intros Ha. revert b.
  induction Ha as [|r a Hr Ha IH]; intros b Hb Hl;
    destruct b as [|s b]; simpl in *; try discriminate; auto.
  inversion Hb; subst.
  rewrite Hr, H1. simpl. apply IH; auto.
Qed.

(** ** Data *)

Lemma draws_length (St : Type) (draw : St -> F * St) (n : nat) (s : St) :
  length (fst (draws draw n s)) = n.
Proof.
  revert s. induction n as [|n IH]; intros s; simpl; auto.
  destruct (draw s) as [v s1]. specialize (IH s1).
  destruct (draws draw n s1) as [vs s2]. simpl in *. now rewrite IH.
Qed.

Lemma draw_rows_length (St : Type) (draw : St -> F * St) (rows cols : nat)
    (s : St) :
  length (fst (draw_rows draw rows cols s)) = rows.
Proof.
  revert s. induction rows as [|rows IH]; intros s; simpl; auto.
  destruct (draws draw cols s) as [r s1]. specialize (IH s1).
  destruct (draw_rows draw rows cols s1) as [rs s2]. simpl in *.
  now rewrite IH.
Qed.

Lemma draw_rows_columns (St : Type) (draw : St -> F * St) (rows cols : nat)
    (s : St) :
  Forall (fun r : vector => length r = cols) (fst (draw_rows draw rows cols s)).
Proof.
  revert s. induction rows as [|rows IH]; intros s; simpl; auto.
  pose proof (draws_length St draw cols s) as Hr.
  destruct (draws draw cols s) as [r s1]. specialize (IH s1).
  destruct (draw_rows draw rows cols s1) as [rs s2]. simpl in *.
  constructor; auto.
Qed.

Lemma np_random_fill_Ok (draw : RandomState -> F * RandomState) (d0 d1 : Z)
    (w : World) :
  (0 <= d0)%Z -> (0 <= d1)%Z ->
  np_random_fill draw d0 d1 w =
  Ok (fst (draw_rows draw (Z.to_nat d0) (Z.to_nat d1) (np_random w)),
      set_np_random
        (snd (draw_rows draw (Z.to_nat d0) (Z.to_nat d1) (np_random w))) w).
Proof.
  intros H0 H1. unfold np_random_fill.
  replace ((d0 <? 0) || (d1 <? 0))%Z with false
    by (symmetry; apply orb_false_iff; split; apply Z.ltb_ge; lia).
  unfold bind, gets, modify, ret.
  now destruct (draw_rows draw (Z.to_nat d0) (Z.to_nat d1) (np_random w)).
Qed.

Lemma np_random_fill_Raise (draw : RandomState -> F * RandomState)
    (d0 d1 : Z) (w : World) :
  (d0 < 0 \/ d1 < 0)%Z ->
  np_random_fill draw d0 d1 w =
  Raise (ValueError "negative dimensions are not allowed").
Proof.
  intros H. unfold np_random_fill.
  replace ((d0 <? 0) || (d1 <? 0))%Z with true; auto.
  symmetry. apply orb_true_iff. destruct H; [left|right]; now apply Z.ltb_lt.
Qed.

(** ** Gradients and optimizer steps on the parameter table *)

Lemma Param_eta (p : Param) : {| data := data p; grad := grad p |} = p.
Proof. now destruct p. Qed.

Lemma contrib_cons (p q : ParamId) (g : tensor)
    (gs : list (ParamId * tensor))
    (init : option tensor) :
  contrib p ((q, g) :: gs) init =
  contrib p gs (if ParamId_eqb q p then accumulate init g else init).
Proof. reflexivity. Qed.

Lemma contrib_not_in (p : ParamId) (gs : Grads) (init : option tensor) :
  ~ In p (map fst gs) -> contrib p gs init = init.
Proof.
  revert init. induction gs as [|[q g] gs IH]; intros init H; auto.
  rewrite contrib_cons. simpl in H.
  rewrite ParamId_eqb_neq by tauto. apply IH. tauto.
Qed.

Lemma contrib_unique (p : ParamId) (gs : Grads) :
  NoDup (map fst gs) -> In p (map fst gs) ->
  exists g, forall init, contrib p gs init = accumulate init g.
Proof.
  induction gs as [|[q g] gs IH]; cbn [map fst In]; intros Hnd Hin; [tauto|].
  inversion Hnd as [|? ? Hq Hnd']; subst.
  destruct (ParamId_eqb q p) eqn:E.
  - apply ParamId_eqb_eq in E. subst q. exists g. intros init.
    rewrite contrib_cons, ParamId_eqb_refl. now apply contrib_not_in.
  - destruct Hin as [->|Hin]; [now rewrite ParamId_eqb_refl in E|].
    destruct (IH Hnd' Hin) as [g' Hg']. exists g'. intros init.
    now rewrite contrib_cons, E.
Qed.

Lemma accumulate_grads_lookup (gs : Grads) (ps : PerParam Param)
    (p : ParamId) :
  lookup (accumulate_grads gs ps) p =
  {| data := data (lookup ps p);
     grad := contrib p gs (grad (lookup ps p)) |}.
Proof.
  revert ps. induction gs as [|[q g] gs IH]; intros ps.
  - symmetry. apply Param_eta.
  - change (accumulate_grads ((q, g) :: gs) ps)
      with (accumulate_grads gs
              (update ps q {| data := data (lookup ps q);
                              grad := accumulate (grad (lookup ps q)) g |})).
    rewrite IH, contrib_cons, lookup_update.
    destruct (ParamId_eqb q p) eqn:E; auto.
    apply ParamId_eqb_eq in E. now subst q.
Qed.

(** A loop that rewrites one entry per turn leaves the other entries, and
    whatever each rewrite preserves. *)
Lemma fold_update_other (A T : Type) (f : PerParam A -> T -> A)
    (key : T -> ParamId) (l : list T) (ps : PerParam A) (p : ParamId) :
  ~ In p (map key l) ->
  lookup (fold_left (fun ps t => update ps (key t) (f ps t)) l ps) p =
  lookup ps p.
Proof.
  revert ps. induction l as [|t l IH]; intros ps H; simpl in *; auto.
  rewrite IH by tauto. apply lookup_update_other. tauto.
Qed.

Lemma fold_update_preserves (A B T : Type) (obs : A -> B)
    (f : PerParam A -> T -> A) (key : T -> ParamId) (l : list T)
    (ps : PerParam A) (p : ParamId) :
  (forall ps t, obs (f ps t) = obs (lookup ps (key t))) ->
  obs (lookup (fold_left (fun ps t => update ps (key t) (f ps t)) l ps) p) =
  obs (lookup ps p).
Proof.
  intros Hf. revert ps. induction l as [|t l IH]; intros ps; simpl; auto.
  rewrite IH, lookup_update.
  destruct (ParamId_eqb (key t) p) eqn:E; auto.
  apply ParamId_eqb_eq in E. subst p. apply Hf.
Qed.

Lemma clear_grads_data (ids : list ParamId) (ps : PerParam Param)
    (p : ParamId) :
  data (lookup (clear_grads ids ps) p) = data (lookup ps p).
Proof.
  unfold clear_grads.
  now apply (fold_update_preserves _ _ _ (@data F)
               (fun ps q => {| data := data (lookup ps q); grad := None |})
               (fun q => q)).
Qed.

Lemma clear_grads_other (ids : list ParamId) (ps : PerParam Param)
    (p : ParamId) :
  ~ In p ids -> lookup (clear_grads ids ps) p = lookup ps p.
Proof.
  intros H. unfold clear_grads.
  apply (fold_update_other _ _
           (fun ps q => {| data := data (lookup ps q); grad := None |})
           (fun q => q)).
  now rewrite map_id.
Qed.

Lemma sgd_update_shape (lr : F) (p : Param) :
  shape (data (sgd_update lr p)) = shape (data p).
Proof.
  unfold sgd_update. destruct (grad p); simpl; auto using shape_tzip_.
Qed.

Lemma SGD_step_shape (o : SGD) (ps : PerParam Param) (p : ParamId) :
  shape (data (lookup (SGD_step o ps) p)) = shape (data (lookup ps p)).
Proof.
  unfold SGD_step.
  apply (fold_update_preserves _ _ _ (fun q : Param => shape (data q))
           (fun ps q => sgd_update (sgd_lr o) (lookup ps q)) (fun q => q)).
  intros. apply sgd_update_shape.
Qed.

Lemma SGD_step_other (o : SGD) (ps : PerParam Param) (p : ParamId) :
  ~ In p (sgd_params o) -> lookup (SGD_step o ps) p = lookup ps p.
Proof.
  intros H. unfold SGD_step.
  apply (fold_update_other _ _
           (fun ps q => sgd_update (sgd_lr o) (lookup ps q)) (fun q => q)).
  now rewrite map_id.
Qed.

Lemma SGD_step_generator (o : SGD) (ps : PerParam Param) (p : ParamId) :
  sgd_params o = Generator_parameters generator ->
  In p (Generator_parameters generator) ->
  lookup (SGD_step o ps) p = sgd_update (sgd_lr o) (lookup ps p).
Proof.
  intros Ho Hp. unfold SGD_step. rewrite Ho.
  destruct Hp as [<-|[<-|[]]]; reflexivity.
Qed.

Lemma adam_update_shape (o : Adam) (q : ParamId)
    (acc : PerParam Param * PerParam (option AdamState)) (p : ParamId) :
  shape (data (lookup (fst (adam_update o q acc)) p)) =
  shape (data (lookup (fst acc) p)).
Proof.
  destruct acc as [ps sts]. unfold adam_update.
  destruct (grad (lookup ps q)); auto. simpl.
  rewrite lookup_update.
  destruct (ParamId_eqb q p) eqn:E; auto.
  apply ParamId_eqb_eq in E. subst p. simpl. apply shape_tzip_.
Qed.

Lemma adam_update_other (o : Adam) (q : ParamId)
    (acc : PerParam Param * PerParam (option AdamState)) (p : ParamId) :
  q <> p ->
  lookup (fst (adam_update o q acc)) p = lookup (fst acc) p.
Proof.
  intros H. destruct acc as [ps sts]. unfold adam_update.
  destruct (grad (lookup ps q)); auto. simpl.
  now apply lookup_update_other.
Qed.

Lemma Adam_step_shape (o : Adam) (ps : PerParam Param) (p : ParamId) :
  shape (data (lookup (fst (Adam_step o ps)) p)) = shape (data (lookup ps p)).
Proof.
  unfold Adam_step. simpl.
  change ps with (fst (ps, adam_state o)) at 2.
  generalize (ps, adam_state o). clear ps.
  induction (adam_params o) as [|q l IH]; intros acc; simpl; auto.
  rewrite IH. apply adam_update_shape.
Qed.

Lemma Adam_step_other (o : Adam) (ps : PerParam Param) (p : ParamId) :
  ~ In p (adam_params o) ->
  lookup (fst (Adam_step o ps)) p = lookup ps p.
Proof.
  unfold Adam_step. simpl.
  change ps with (fst (ps, adam_state o)) at 2.
  generalize (ps, adam_state o). clear ps.
  induction (adam_params o) as [|q l IH]; intros acc H; simpl in *; auto.
  rewrite IH by tauto. apply adam_update_other. tauto.
Qed.

(** ** Forward passes *)

Lemma bind_gets (A B : Type) (f : World -> A) (k : A -> M B) (w : World) :
  bind (gets f) k w = k (f w) w.
Proof. reflexivity. Qed.

Lemma bind_modify (B : Type) (f : World -> World) (k : unit -> M B)
    (w : World) :
  bind (modify f) k w = k tt (f w).
Proof. reflexivity. Qed.

Lemma propagate_tracked (v : Var) (ids : list ParamId) (g : matrix) :
  tracked (grad_fn v) ids -> map fst (propagate v g) = ids.
Proof.
  intros [k [Hk Hids]]. unfold propagate. rewrite Hk. apply Hids.
Qed.

Lemma propagate_leaf (v : Var) (g : matrix) :
  grad_fn v = None -> propagate v g = [].
Proof. intros H. unfold propagate. now rewrite H. Qed.

Lemma F_linear_Ok (grad_enabled : bool) (l : Linear) (v : Var) (w : World)
    (row : vector) (b0 : F) :
  data (lookup (params w) (weight l)) = T2 [row] ->
  data (lookup (params w) (bias l)) = T1 [b0] ->
  Forall (fun r : vector => length r = length row) (val v) ->
  exists out,
    F_linear grad_enabled l v w = Ok (out, w)
    /\ val out = map (fun r => [fadd (dot r row) b0]) (val v)
    /\ (grad_enabled = false -> grad_fn out = None)
    /\ (grad_enabled = true ->
        forall ids, (forall g, map fst (propagate v g) = ids) ->
                    tracked (grad_fn out) (weight l :: bias l :: ids)).
Proof.
  intros HW Hb Hv. apply rows_have_Forall in Hv.
  unfold F_linear. rewrite !bind_gets, HW, Hb.
  cbn [as_matrix as_vector hd]. rewrite Hv.
  eexists. split; [reflexivity|]. cbn [val grad_fn combine map fst snd].
  split; [reflexivity|]. split.
  - now intros ->.
  - intros -> ids Hids. eexists. split; [reflexivity|].
    intros g. cbn [map fst]. now rewrite Hids.
Qed.

Lemma elementwise_val (grad_enabled : bool) (f : F -> F)
    (df : F -> F -> F -> F) (v : Var) :
  val (elementwise grad_enabled f df v) = map (map f) (val v).
Proof. reflexivity. Qed.

Lemma elementwise_tracked (f : F -> F) (df : F -> F -> F -> F) (v : Var)
    (ids : list ParamId) :
  tracked (grad_fn v) ids ->
  tracked (grad_fn (elementwise true f df v)) ids.
Proof.
  intros [k [Hk Hids]]. unfold elementwise. cbn [grad_fn]. rewrite Hk.
  eexists. split; [reflexivity|]. intros g. apply Hids.
Qed.

Lemma columns_map (A : Type) (f : A -> vector) (l : list A) :
  (forall a, length (f a) = 1%nat) ->
  Forall (fun r : vector => length r = 1%nat) (map f l).
Proof. intros H. apply Forall_forall. intros r Hr.
  apply in_map_iff in Hr. destruct Hr as [a [<- _]]. apply H.
Qed.

Lemma columns_map_map (f : F -> F) (m : matrix) :
  Forall (fun r : vector => length r = 1%nat) m ->
  Forall (fun r : vector => length r = 1%nat) (map (map f) m).
Proof.
  intros H. induction H; simpl; constructor; auto.
  now rewrite length_map.
Qed.

Lemma criterion_Ok (input : Var) (target : matrix) (w : World) :
  same_shape (val input) target = true ->
  exists l,
    criterion input target w = Ok (l, w)
    /\ forall ids, tracked (grad_fn input) ids -> tracked (lgrad_fn l) ids.
Proof.
  intros H. unfold criterion. rewrite H.
  eexists. split; [reflexivity|].
  intros ids [k [Hk Hids]]. cbn [lgrad_fn]. rewrite Hk.
  eexists. split; [reflexivity|]. intros g. apply Hids.
Qed.

Lemma backward_Ok (l : Loss) (w : World) (ids : list ParamId) :
  tracked (lgrad_fn l) ids ->
  exists gs,
    backward l w = Ok (tt, set_params (accumulate_grads gs (params w)) w)
    /\ map fst gs = ids
    /\ forall p, grad_wrt l p = contrib p gs None.
Proof.
  intros [k [Hk Hids]]. exists (k fone).
  unfold backward, grad_wrt. rewrite Hk. repeat split. apply Hids.
Qed.

Lemma Generator_forward_Ok (grad_enabled : bool) (v : Var) (w : World) :
  ready w ->
  Forall (fun r : vector => length r = Z.to_nat (N w)) (val v) ->
  grad_fn v = None ->
  exists out,
    Generator_forward grad_enabled generator v w = Ok (out, w)
    /\ length (val out) = length (val v)
    /\ Forall (fun r : vector => length r = 1%nat) (val out)
    /\ (grad_enabled = false -> grad_fn out = None)
    /\ (grad_enabled = true ->
        tracked (grad_fn out) (Generator_parameters generator)).
Proof.
  intros Hw Hv Hleaf.
  destruct (shape_row _ _ (ready_generator_weight Hw)) as [row [HW Hrow]].
  destruct (shape_single _ (ready_generator_bias Hw)) as [b0 Hb].
  rewrite <- Hrow in Hv.
  destruct (F_linear_Ok grad_enabled (Generator_fc generator) v w row b0
              HW Hb Hv) as [y [Hy [Hval [Hoff Hon]]]].
  unfold Generator_forward. rewrite (bind_Ok _ _ _ _ _ _ _ Hy).
  eexists. split; [reflexivity|].
  unfold F_leaky_relu. rewrite elementwise_val, Hval.
  rewrite !length_map. split; [reflexivity|]. split.
  - apply columns_map_map. now apply columns_map.
  - split.
    + intros ->. reflexivity.
    + intros ->. apply elementwise_tracked. apply (Hon eq_refl).
      intros g. now rewrite propagate_leaf.
Qed.

Lemma Discriminator_forward_Ok (v : Var) (w : World) (ids : list ParamId) :
  ready w ->
  Forall (fun r : vector => length r = 1%nat) (val v) ->
  (forall g, map fst (propagate v g) = ids) ->
  exists out,
    Discriminator_forward true discriminator v w = Ok (out, w)
    /\ length (val out) = length (val v)
    /\ Forall (fun r : vector => length r = 1%nat) (val out)
    /\ tracked (grad_fn out)
         (Discriminator_parameters discriminator ++ ids).
Proof.
  intros Hw Hv Hids.
  destruct (shape_row _ _ (ready_discriminator_weight Hw))
    as [row [HW Hrow]].
  destruct (shape_single _ (ready_discriminator_bias Hw)) as [b0 Hb].
  rewrite <- Hrow in Hv.
  destruct (F_linear_Ok true (Discriminator_fc discriminator) v w row b0
              HW Hb Hv) as [y [Hy [Hval [_ Hon]]]].
  unfold Discriminator_forward. rewrite (bind_Ok _ _ _ _ _ _ _ Hy).
  eexists. split; [reflexivity|].
  unfold F_sigmoid. rewrite elementwise_val, Hval.
  rewrite !length_map. split; [reflexivity|]. split.
  - apply columns_map_map. now apply columns_map.
  - apply elementwise_tracked. now apply (Hon eq_refl).
Qed.

(** ** The state kept by training *)

Lemma ready_set_params (w : World) (ps : PerParam Param) :
  ready w ->
  (forall p, shape (data (lookup ps p)) = shape (data (lookup (params w) p))) ->
  ready (set_params ps w).
Proof.
  intros [HN Hgw Hgb Hdw Hdb Hsgd Hadam] H.
  constructor; unfold data_shape in *; cbn [params set_params N
    optimizer_gen optimizer_disc]; auto; rewrite H; auto.
Qed.

Lemma ready_set_np_random (w : World) (s : RandomState) :
  ready w -> ready (set_np_random s w).
Proof. intros [HN Hgw Hgb Hdw Hdb Hsgd Hadam]. now constructor. Qed.

Lemma zero_grad_Ok (ids : list ParamId) (w : World) :
  zero_grad ids w = Ok (tt, set_params (clear_grads ids (params w)) w).
Proof. reflexivity. Qed.

Lemma optimizer_disc_step_Ok (w : World) :
  optimizer_disc_step w =
  Ok (tt, set_optimizer_disc (snd (Adam_step (optimizer_disc w) (params w)))
            (set_params (fst (Adam_step (optimizer_disc w) (params w))) w)).
Proof. reflexivity. Qed.

Lemma optimizer_gen_step_Ok (w : World) :
  optimizer_gen_step w =
  Ok (tt, set_params (SGD_step (optimizer_gen w) (params w)) w).
Proof. reflexivity. Qed.

Lemma ready_optimizer_disc_step (w : World) :
  ready w ->
  ready (set_optimizer_disc (snd (Adam_step (optimizer_disc w) (params w)))
           (set_params (fst (Adam_step (optimizer_disc w) (params w))) w)).
Proof.
  intros [HN Hgw Hgb Hdw Hdb Hsgd Hadam].
  constructor; unfold data_shape in *;
    cbn [params set_params set_optimizer_disc N optimizer_gen
         optimizer_disc]; auto;
    try (rewrite Adam_step_shape; auto).
Qed.

Lemma ready_optimizer_gen_step (w : World) :
  ready w -> ready (set_params (SGD_step (optimizer_gen w) (params w)) w).
Proof.
  intros H. apply ready_set_params; auto. intros p. apply SGD_step_shape.
Qed.

Lemma generator_not_discriminator (p : ParamId) :
  In p (Generator_parameters generator) ->
  ~ In p (Discriminator_parameters discriminator).
Proof. intros [<-|[<-|[]]] [H|[H|[]]]; discriminate. Qed.

Lemma discriminator_not_generator (p : ParamId) :
  In p (Discriminator_parameters discriminator) ->
  ~ In p (Generator_parameters generator).
Proof. intros [<-|[<-|[]]] [H|[H|[]]]; discriminate. Qed.

Lemma BATCH_SZ_nonneg : (0 <= BATCH_SZ)%Z.
Proof. unfold BATCH_SZ. lia. Qed.

Lemma torch_ones_length (n : Z) : length (@torch_ones F SF n) = Z.to_nat n.
Proof. apply repeat_length. Qed.

Lemma torch_zeros_length (n : Z) : length (@torch_zeros F SF n) = Z.to_nat n.
Proof. apply repeat_length. Qed.

Lemma columns_repeat (v : F) (n : nat) :
  Forall (fun r : vector => length r = 1%nat) (repeat [v] n).
Proof.
  apply Forall_forall. intros r Hr. apply repeat_spec in Hr. now subst.
Qed.

(** ** The two passes of an iteration *)

Ltac conjunctions :=
  repeat match goal with |- _ /\ _ => split end; auto.

Local Opaque BATCH_SZ.

Lemma discriminator_pass_Ok (w : World) :
  ready w ->
  exists d w',
    discriminator_pass w = Ok (d, w')
    /\ ready w'
    /\ N w' = N w
    /\ optimizer_gen w' = optimizer_gen w
    /\ optimizer_disc w' = optimizer_disc w
    /\ torch_rng w' = torch_rng w
    /\ (forall p, In p (Generator_parameters generator) ->
                  lookup (params w') p = lookup (params w) p)
    /\ (forall p, data (lookup (params w') p) = data (lookup (params w) p))
    /\ x d = torch_concat (real d) (detach (created d))
    /\ y d = torch_ones BATCH_SZ ++ torch_zeros BATCH_SZ
    /\ length (val (real d)) = Z.to_nat BATCH_SZ
    /\ length (val (created d)) = Z.to_nat BATCH_SZ
    /\ Forall (fun r : vector => length r = 1%nat) (val (created d))
    /\ tracked (grad_fn (created d)) (Generator_parameters generator)
    /\ (exists a0 a1 wm,
          noise d = torch_tensor a0
          /\ real d = torch_tensor a1
          /\ Generator_forward true generator (noise d) wm
             = Ok (created d, wm)
          /\ Discriminator_forward true discriminator (x d) wm
             = Ok (out1 d, wm)
          /\ criterion (out1 d) (y d) wm = Ok (loss_1 d, wm)
          /\ forall p, data (lookup (params wm) p)
                       = data (lookup (params w) p)).
Proof.
  intros Hw. unfold discriminator_pass.
  rewrite (bind_Ok _ _ _ _ _ _ _ (zero_grad_Ok _ w)).
  set (w1 := set_params _ w).
  assert (Hw1 : ready w1).
  { apply ready_set_params; auto. intros p. now rewrite clear_grads_data. }
  rewrite bind_gets. change (N w1) with (N w).
  unfold generate_uniform, np_random_rand.
  rewrite (bind_Ok _ _ _ _ _ _ _
             (np_random_fill_Ok random_sample BATCH_SZ (N w) w1
                BATCH_SZ_nonneg (ready_N Hw))).
  set (a0 := fst (draw_rows random_sample _ _ (np_random w1))).
  set (w2 := set_np_random _ w1).
  assert (Hw2 : ready w2) by now apply ready_set_np_random.
  unfold generate_gaussian, np_random_randn.
  rewrite (bind_Ok _ _ _ _ _ _ _
             (np_random_fill_Ok standard_normal BATCH_SZ 1 w2
                BATCH_SZ_nonneg ltac:(lia))).
  set (a1 := fst (draw_rows standard_normal _ _ (np_random w2))).
  set (w3 := set_np_random _ w2).
  assert (Hw3 : ready w3) by now apply ready_set_np_random.
  assert (Hnoise : Forall (fun r : vector => length r = Z.to_nat (N w3))
                          (val (torch_tensor a0))).
  { change (N w3) with (N w). cbn [val torch_tensor].
    pose proof (draw_rows_columns _ random_sample (Z.to_nat BATCH_SZ)
                  (Z.to_nat (N w)) (np_random w1)) as H.
    fold a0 in H. induction H; simpl; constructor; auto.
    now rewrite length_map. }
  destruct (Generator_forward_Ok true (torch_tensor a0) w3 Hw3 Hnoise
              eq_refl) as [c [Hc [Hclen [Hccol [_ Hctr]]]]].
  specialize (Hctr eq_refl).
  rewrite (bind_Ok _ _ _ _ _ _ _ Hc).
  assert (Hreal : Forall (fun r : vector => length r = 1%nat)
                         (val (torch_tensor a1))).
  { cbn [val torch_tensor].
    pose proof (draw_rows_columns _ standard_normal (Z.to_nat BATCH_SZ)
                  (Z.to_nat 1) (np_random w2)) as H.
    fold a1 in H. induction H; simpl; constructor; auto.
    now rewrite length_map. }
  assert (Hreal_len : length (val (torch_tensor a1)) = Z.to_nat BATCH_SZ).
  { cbn [val torch_tensor]. rewrite length_map. apply draw_rows_length. }
  assert (Hc_len : length (val c) = Z.to_nat BATCH_SZ).
  { rewrite Hclen. cbn [val torch_tensor]. rewrite length_map.
    apply draw_rows_length. }
  set (xx := torch_concat (torch_tensor a1) (detach c)).
  assert (Hxcol : Forall (fun r : vector => length r = 1%nat) (val xx)).
  { cbn [val xx torch_concat detach]. apply Forall_app. now split. }
  assert (Hxleaf : forall g, map fst (propagate xx g) = []).
  { intros g. now rewrite propagate_leaf. }
  destruct (Discriminator_forward_Ok xx w3 [] Hw3 Hxcol Hxleaf)
    as [o1 [Ho1 [Holen [Hocol Hotr]]]].
  rewrite (bind_Ok _ _ _ _ _ _ _ Ho1).
  assert (Hsame : same_shape (val o1)
                    (torch_ones BATCH_SZ ++ torch_zeros BATCH_SZ) = true).
  { apply same_shape_columns; auto.
    - apply Forall_app. split; apply columns_repeat.
    - rewrite Holen. cbn [val xx torch_concat detach].
      rewrite !length_app, torch_ones_length, torch_zeros_length.
      now rewrite Hreal_len, Hc_len. }
  destruct (criterion_Ok o1 _ w3 Hsame) as [l1 [Hl1 Hltr]].
  rewrite (bind_Ok _ _ _ _ _ _ _ Hl1).
  destruct (backward_Ok l1 w3 _ (Hltr _ Hotr)) as [gs [Hb [Hgs _]]].
  rewrite (bind_Ok _ _ _ _ _ _ _ Hb).
  set (w4 := set_params _ w3).
  assert (Hdata : forall p, data (lookup (params w4) p)
                            = data (lookup (params w) p)).
  { intros p. cbn [w4 params set_params]. rewrite accumulate_grads_lookup.
    cbn [data w3 w2 w1 params set_params set_np_random].
    apply clear_grads_data. }
  assert (Hw4 : ready w4).
  { apply ready_set_params; auto. intros p.
    now rewrite accumulate_grads_lookup. }
  assert (Hgen : forall p, In p (Generator_parameters generator) ->
                           lookup (params w4) p = lookup (params w) p).
  { intros p Hp. cbn [w4 params set_params].
    rewrite accumulate_grads_lookup, contrib_not_in.
    - rewrite Param_eta.
      cbn [w3 w2 w1 params set_params set_np_random].
      apply clear_grads_other. now apply generator_not_discriminator.
    - rewrite Hgs, app_nil_r. now apply generator_not_discriminator. }
  eexists. exists w4. split; [reflexivity|].
  cbn [x y real created noise out1 loss_1]. conjunctions.
  exists a0, a1, w3. conjunctions.
  intros p. cbn [w3 w2 w1 params set_params set_np_random].
  apply clear_grads_data.
Qed.

Lemma generator_pass_Ok (w : World) (c : Var) :
  ready w ->
  length (val c) = Z.to_nat BATCH_SZ ->
  Forall (fun r : vector => length r = 1%nat) (val c) ->
  tracked (grad_fn c) (Generator_parameters generator) ->
  exists g w',
    generator_pass c w = Ok (g, w')
    /\ ready w'
    /\ N w' = N w
    /\ optimizer_gen w' = optimizer_gen w
    /\ optimizer_disc w' = optimizer_disc w
    /\ np_random w' = np_random w
    /\ torch_rng w' = torch_rng w
    /\ (forall p, data (lookup (params w') p) = data (lookup (params w) p))
    /\ (forall p, In p (Generator_parameters generator) ->
          exists gr,
            grad_wrt (loss_2 g) p = Some gr
            /\ grad (lookup (params w') p)
               = accumulate (grad (lookup (params w) p)) gr)
    /\ (exists wm,
          Discriminator_forward true discriminator c wm = Ok (out2 g, wm)
          /\ criterion (out2 g) (torch_zeros BATCH_SZ) wm
             = Ok (loss_2 g, wm)
          /\ forall p, data (lookup (params wm) p)
                       = data (lookup (params w) p)).
Proof.
  intros Hw Hclen Hccol Hctr. unfold generator_pass.
  rewrite (bind_Ok _ _ _ _ _ _ _ (zero_grad_Ok _ w)).
  set (w1 := set_params _ w).
  assert (Hw1 : ready w1).
  { apply ready_set_params; auto. intros p. now rewrite clear_grads_data. }
  destruct (Discriminator_forward_Ok c w1 _ Hw1 Hccol
              (fun g => propagate_tracked c _ g Hctr))
    as [o2 [Ho2 [Holen [Hocol Hotr]]]].
  rewrite (bind_Ok _ _ _ _ _ _ _ Ho2).
  assert (Hsame : same_shape (val o2) (torch_zeros BATCH_SZ) = true).
  { apply same_shape_columns; auto.
    - apply columns_repeat.
    - now rewrite Holen, torch_zeros_length. }
  destruct (criterion_Ok o2 _ w1 Hsame) as [l2 [Hl2 Hltr]].
  rewrite (bind_Ok _ _ _ _ _ _ _ Hl2).
  destruct (backward_Ok l2 w1 _ (Hltr _ Hotr)) as [gs [Hb [Hgs Hwrt]]].
  rewrite (bind_Ok _ _ _ _ _ _ _ Hb).
  set (w2 := set_params _ w1).
  assert (Hdata : forall p, data (lookup (params w2) p)
                            = data (lookup (params w) p)).
  { intros p. cbn [w2 params set_params]. rewrite accumulate_grads_lookup.
    cbn [data w1 params set_params]. apply clear_grads_data. }
  assert (Hw2 : ready w2).
  { apply ready_set_params; auto. intros p.
    now rewrite accumulate_grads_lookup. }
  eexists. exists w2. split; [reflexivity|]. cbn [loss_2 out2].
  conjunctions.
  2:{ exists w1. conjunctions. intros p. cbn [w1 params set_params].
      apply clear_grads_data. }
  intros p Hp.
  assert (Hnd : NoDup (map fst gs)).
  { rewrite Hgs. repeat constructor; simpl; intuition discriminate. }
  assert (Hin : In p (map fst gs)).
  { rewrite Hgs. apply in_or_app. now right. }
  destruct (contrib_unique p gs Hnd Hin) as [gr Hgr].
  exists gr. split.
  - now rewrite Hwrt, Hgr.
  - cbn [w2 params set_params].
    rewrite accumulate_grads_lookup. cbn [grad]. rewrite Hgr.
    cbn [w1 params set_params].
    rewrite clear_grads_other; auto.
    now apply generator_not_discriminator.
Qed.

(** ** One iteration *)

Lemma iteration_Ok (w : World) :
  ready w ->
  exists d g wd wg,
    discriminator_pass w = Ok (d, wd)
    /\ generator_pass (created d)
         (set_optimizer_disc
            (snd (Adam_step (optimizer_disc wd) (params wd)))
            (set_params (fst (Adam_step (optimizer_disc wd) (params wd)))
                        wd))
       = Ok (g, wg)
    /\ iteration w
       = Ok ((d, g), set_params (SGD_step (optimizer_gen wg) (params wg)) wg)
    /\ ready wd /\ ready wg
    /\ ready (set_params (SGD_step (optimizer_gen wg) (params wg)) wg)
    /\ N wg = N w
    /\ optimizer_gen wg = optimizer_gen w
    /\ (forall p, In p (Generator_parameters generator) ->
          exists gr,
            grad_wrt (loss_2 g) p = Some gr
            /\ lookup (params wg) p
               = {| data := data (lookup (params w) p);
                    grad := accumulate (grad (lookup (params w) p)) gr |}).
Proof.
  intros Hw.
  destruct (discriminator_pass_Ok w Hw)
    as [d [wd [Hd [Hwd [HN [Hog [Hod [_ [Hgen [_ [_ [_ [_ [Hclen
        [Hccol [Hctr _]]]]]]]]]]]]]]]].
  pose proof (ready_optimizer_disc_step wd Hwd) as Hwd'.
  set (wd' := set_optimizer_disc _ _) in *.
  destruct (generator_pass_Ok wd' (created d) Hwd' Hclen Hccol Hctr)
    as [g [wg [Hg [Hwg [HN' [Hog' [_ [_ [_ [Hdata [Hgr _]]]]]]]]]]].
  exists d, g, wd, wg. conjunctions.
  - unfold iteration.
    rewrite (bind_Ok _ _ _ _ _ _ _ Hd).
    rewrite (bind_Ok _ _ _ _ _ _ _ (optimizer_disc_step_Ok wd)).
    fold wd'. rewrite (bind_Ok _ _ _ _ _ _ _ Hg).
    now rewrite (bind_Ok _ _ _ _ _ _ _ (optimizer_gen_step_Ok wg)).
  - now apply ready_optimizer_gen_step.
  - now rewrite HN'.
  - now rewrite Hog'.
  - intros p Hp. destruct (Hgr p Hp) as [gr [Hwrt Hacc]].
    exists gr. split; auto.
    assert (Hp' : lookup (params wd') p = lookup (params w) p).
    { cbn [wd' params set_optimizer_disc set_params].
      rewrite Adam_step_other, Hgen; auto.
      rewrite (ready_optimizer_disc Hwd).
      now apply generator_not_discriminator. }
    rewrite <- (Param_eta (lookup (params wg) p)).
    now rewrite Hdata, Hacc, Hp'.
Qed.

(** ** The loop *)

Lemma iterations_Ok (n : nat) (w : World) :
  ready w ->
  exists ls w',
    iterations n w = Ok (ls, w')
    /\ length ls = n
    /\ ready w'
    /\ N w' = N w
    /\ optimizer_gen w' = optimizer_gen w.
Proof.
  revert w. induction n as [|n IH]; intros w Hw.
  - exists [], w. now conjunctions.
  - destruct (iteration_Ok w Hw)
      as [d [g [wd [wg [_ [_ [Hit [_ [_ [Hw' [HN [Hog _]]]]]]]]]]]].
    destruct (IH _ Hw') as [ls [w'' [Hls [Hlen [Hw'' [HN' Hog']]]]]].
    exists ((d, g) :: ls), w''.
    cbn [iterations]. rewrite (bind_Ok _ _ _ _ _ _ _ Hit).
    rewrite (bind_Ok _ _ _ _ _ _ _ Hls). conjunctions.
    + simpl. now rewrite Hlen.
    + now rewrite HN'.
    + now rewrite Hog'.
Qed.

Lemma iterations_S (n : nat) (w : World) :
  iterations (S n) w =
  match iteration w with
  | Ok (l, w1) =>
      match iterations n w1 with
      | Ok (ls, w2) => Ok (l :: ls, w2)
      | Raise e => Raise e
      end
  | Raise e => Raise e
  end.
Proof.
  cbn [iterations]. unfold bind, ret.
  destruct (iteration w) as [[l w1]|e]; auto.
Qed.

Lemma iterations_snoc (n : nat) (w : World) :
  iterations (S n) w =
  match iterations n w with
  | Ok (ls, w1) =>
      match iteration w1 with
      | Ok (l, w2) => Ok (ls ++ [l], w2)
      | Raise e => Raise e
      end
  | Raise e => Raise e
  end.
Proof.
  revert w. induction n as [|n IH]; intros w.
  - rewrite iterations_S. cbn [iterations]. unfold ret.
    now destruct (iteration w) as [[l w1]|e].
  - rewrite (iterations_S (S n) w), (iterations_S n w).
    destruct (iteration w) as [[l w1]|e]; auto.
    rewrite IH.
    destruct (iterations n w1) as [[ls w2]|e]; auto.
    now destruct (iteration w2) as [[l' w3]|e].
Qed.

Lemma train_body_iteration (loss_D loss_G : list PyObj) (w : World) :
  train_body loss_D loss_G w =
  match iteration w with
  | Ok (l, w') =>
      Ok ((loss_D ++ [Tensor_item (loss_1 (fst l))],
           loss_G ++ [Tensor_item (loss_2 (snd l))]), w')
  | Raise e => Raise e
  end.
Proof.
  unfold train_body, iteration, bind, ret.
  destruct (discriminator_pass w) as [[d w1]|e]; auto.
  rewrite optimizer_disc_step_Ok.
  destruct (generator_pass (created d) _) as [[g w3]|e]; auto.
Qed.

Lemma train_loop_iterations (n : nat) (loss_D loss_G : list PyObj)
    (w : World) :
  train_loop n loss_D loss_G w =
  match iterations n w with
  | Ok (ls, w') =>
      Ok ((loss_D ++ map (fun l => Tensor_item (loss_1 (fst l))) ls,
           loss_G ++ map (fun l => Tensor_item (loss_2 (snd l))) ls), w')
  | Raise e => Raise e
  end.
Proof.
  revert loss_D loss_G w. induction n as [|n IH]; intros loss_D loss_G w.
  - cbn. now rewrite !app_nil_r.
  - cbn [train_loop iterations]. unfold bind at 1 2.
    rewrite train_body_iteration.
    destruct (iteration w) as [[l w1]|e]; auto.
    cbn [fst snd]. rewrite IH. unfold bind, ret.
    destruct (iterations n w1) as [[ls w2]|e]; auto.
    cbn [map]. now rewrite <- !app_assoc.
Qed.

(** ** Set-up *)

Lemma reset_parameters_shape (i o : Z) (g : TorchGenerator) :
  let '(W, b, _) := reset_parameters i o g in
  length W = Z.to_nat o
  /\ Forall (fun r : vector => length r = Z.to_nat i) W
  /\ length b = Z.to_nat o.
Proof.
  unfold reset_parameters.
  pose proof (draw_rows_length _
    (uniform_ (fneg (kaiming_bound i)) (kaiming_bound i))
    (Z.to_nat o) (Z.to_nat i) g) as H1.
  pose proof (draw_rows_columns _
    (uniform_ (fneg (kaiming_bound i)) (kaiming_bound i))
    (Z.to_nat o) (Z.to_nat i) g) as H2.
  destruct (draw_rows _ _ _ g) as [W g1]. cbn [fst] in *.
  pose proof (draws_length _
    (uniform_ (fneg (bias_bound i)) (bias_bound i)) (Z.to_nat o) g1) as H3.
  destruct (draws _ _ g1) as [b g2]. now cbn [fst] in *.
Qed.

Lemma shape_T2_row (W : matrix) (k : nat) :
  length W = 1%nat ->
  Forall (fun r : vector => length r = k) W ->
  shape (T2 W) = [1%nat; k].
Proof.
  intros Hl Hc. destruct W as [|r [|r' W]]; try discriminate.
  inversion Hc; subst. reflexivity.
Qed.

Lemma initialised_spec (l : Linear) (i o : Z) (w : World) :
  exists W b g',
    initialised l i o w
    = set_params
        (update (update (params w) (weight l)
                        {| data := T2 W; grad := None |})
                (bias l) {| data := T1 b; grad := None |})
        (set_torch_rng g' w)
    /\ length W = Z.to_nat o
    /\ Forall (fun r : vector => length r = Z.to_nat i) W
    /\ length b = Z.to_nat o.
Proof.
  unfold initialised.
  pose proof (reset_parameters_shape i o (torch_rng w)) as H.
  destruct (reset_parameters i o (torch_rng w)) as [[W b] g'].
  exists W, b, g'. now conjunctions.
Qed.

Lemma Linear_init_eq (l : Linear) (i o : Z) (w : World) :
  Linear_init l i o w =
  if ((i <? 0) || (o <? 0))%Z then
    Raise (RuntimeError "Trying to create tensor with negative dimension")
  else Ok (tt, initialised l i o w).
Proof.
  unfold Linear_init, initialised.
  destruct ((i <? 0) || (o <? 0))%Z; [reflexivity|].
  rewrite bind_gets.
  now destruct (reset_parameters i o (torch_rng w)) as [[W b] g'].
Qed.

Lemma cell7_with_eq (n : Z) (w : World) :
  cell7_with n w =
  if (n <? 0)%Z then
    Raise (RuntimeError "Trying to create tensor with negative dimension")
  else
    Ok (tt,
        set_optimizer_disc
          {| adam_params := Discriminator_parameters discriminator;
             adam_lr := lit (1 # 100);
             adam_beta1 := lit (9 # 10);
             adam_beta2 := lit (999 # 1000);
             adam_eps := lit (1 # 100000000);
             adam_state := tabulate (fun _ => None) |}
          (set_optimizer_gen
             {| sgd_params := Generator_parameters generator;
                sgd_lr := lit (1 # 100) |}
             (initialised (Discriminator_fc discriminator) 1 1
                (initialised (Generator_fc generator) n 1 (set_N n w))))).
Proof.
  unfold cell7_with. rewrite bind_modify.
  unfold bind at 1. rewrite Linear_init_eq.
  replace ((n <? 0) || (1 <? 0))%Z with (n <? 0)%Z
    by (cbn [Z.ltb Z.compare]; now rewrite orb_false_r).
  destruct (n <? 0)%Z; [reflexivity|].
  unfold bind at 1. rewrite Linear_init_eq. reflexivity.
Qed.

Lemma cell7_with_Ok (n : Z) (w : World) :
  (0 <= n)%Z ->
  exists w',
    cell7_with n w = Ok (tt, w')
    /\ ready w'
    /\ N w' = n
    /\ np_random w' = np_random w
    /\ forall p, grad (lookup (params w') p) = None.
Proof.
  intros Hn. rewrite cell7_with_eq.
  replace (n <? 0)%Z with false by (symmetry; apply Z.ltb_ge; lia).
  eexists. split; [reflexivity|].
  destruct (initialised_spec (Generator_fc generator) n 1 (set_N n w))
    as [W [b [g1 [-> [HW [HWc Hb]]]]]].
  destruct (initialised_spec (Discriminator_fc discriminator) 1 1
              (set_params
                 (update
                    (update (params (set_N n w))
                       (weight (Generator_fc generator))
                       {| data := T2 W; grad := None |})
                    (bias (Generator_fc generator))
                    {| data := T1 b; grad := None |})
                 (set_torch_rng g1 (set_N n w))))
    as [W' [b' [g2 [-> [HW' [HWc' Hb']]]]]].
  conjunctions.
  - constructor; unfold data_shape; cbn; auto.
    + now apply shape_T2_row.
    + now rewrite Hb.
    + now apply shape_T2_row.
    + now rewrite Hb'.
  - now intros [].
Qed.

(** ** Accumulated gradients *)

Lemma sgd_update_grad (lr : F) (p : Param) :
  grad (sgd_update lr p) = grad p.
Proof. unfold sgd_update. now destruct (grad p) eqn:E. Qed.

Lemma sgd_update_data (lr : F) (p : Param) (G : tensor) :
  grad p = Some G ->
  data (sgd_update lr p) = tzip_ (fun v d => fsub v (fmul lr d)) (data p) G.
Proof. intros H. unfold sgd_update. now rewrite H. Qed.

Lemma accumulate_sum (gs : list tensor) (g : tensor) :
  accumulate (sum_tensors gs) g = sum_tensors (gs ++ [g]).
Proof.
  destruct gs as [|g0 gs]; auto.
  cbn [sum_tensors accumulate app]. now rewrite fold_left_app.
Qed.

Lemma generator_grads_after (w1 : World) (t : nat) :
  ready w1 ->
  (forall p, In p (Generator_parameters generator) ->
             grad (lookup (params w1) p) = None) ->
  exists ls wt,
    iterations t w1 = Ok (ls, wt)
    /\ ready wt
    /\ length ls = t
    /\ forall p, In p (Generator_parameters generator) ->
         exists gs,
           Forall2 (fun l gr => grad_wrt (loss_2 (snd l)) p = Some gr) ls gs
           /\ grad (lookup (params wt) p) = sum_tensors gs.
Proof.
  intros Hw1 Hnone. induction t as [|t IH].
  - exists [], w1. conjunctions. intros p Hp. exists [].
    split; [constructor|]. now apply Hnone.
  - destruct IH as [ls [wt [Hls [Hwt [Hlen Hsum]]]]].
    destruct (iteration_Ok wt Hwt)
      as [d [g [wd [wg [_ [_ [Hit [_ [Hwg [Hw' [_ [_ Hgr]]]]]]]]]]]].
    exists (ls ++ [(d, g)]).
    exists (set_params (SGD_step (optimizer_gen wg) (params wg)) wg).
    conjunctions.
    + now rewrite iterations_snoc, Hls, Hit.
    + rewrite length_app, Hlen. simpl. lia.
    + intros p Hp. destruct (Hsum p Hp) as [gs [Hall Hgs]].
      destruct (Hgr p Hp) as [gr [Hwrt Hacc]].
      exists (gs ++ [gr]). split.
      * apply Forall2_app; auto.
      * cbn [params set_params].
        rewrite (SGD_step_generator _ _ p (ready_optimizer_gen Hwg) Hp).
        now rewrite sgd_update_grad, Hacc, Hgs, accumulate_sum.
Qed.

Lemma accumulate_all_snoc (init : option tensor) (gs : list tensor)
    (g : tensor) :
  accumulate_all init (gs ++ [g]) = accumulate (accumulate_all init gs) g.
Proof. unfold accumulate_all. now rewrite fold_left_app. Qed.

Lemma accumulate_all_sum (gs0 gs : list tensor) :
  accumulate_all (sum_tensors gs0) gs = sum_tensors (gs0 ++ gs).
Proof.
  revert gs0. induction gs as [|g gs IH]; intros gs0.
  - now rewrite app_nil_r.
  - change (accumulate_all (sum_tensors gs0) (g :: gs))
      with (accumulate_all (accumulate (sum_tensors gs0) g) gs).
    rewrite accumulate_sum, IH, <- app_assoc. reflexivity.
Qed.

Lemma sum_tensors_snoc (gs : list tensor) (g : tensor) :
  exists G, sum_tensors (gs ++ [g]) = Some G.
Proof. destruct gs; eexists; reflexivity. Qed.

(** From any world that is set up, whatever the generator's [.grad] holds
    there. *)
Lemma generator_grads_from (w : World) (t : nat) :
  ready w ->
  exists ls wt,
    iterations t w = Ok (ls, wt)
    /\ ready wt
    /\ length ls = t
    /\ forall p, In p (Generator_parameters generator) ->
         exists gs,
           Forall2 (fun l gr => grad_wrt (loss_2 (snd l)) p = Some gr) ls gs
           /\ grad (lookup (params wt) p)
              = accumulate_all (grad (lookup (params w) p)) gs.
Proof.
  intros Hw. induction t as [|t IH].
  - exists [], w. conjunctions. intros p Hp. exists [].
    split; [constructor|reflexivity].
  - destruct IH as [ls [wt [Hls [Hwt [Hlen Hsum]]]]].
    destruct (iteration_Ok wt Hwt)
      as [d [g [wd [wg [_ [_ [Hit [_ [Hwg [Hw' [_ [_ Hgr]]]]]]]]]]]].
    exists (ls ++ [(d, g)]).
    exists (set_params (SGD_step (optimizer_gen wg) (params wg)) wg).
    conjunctions.
    + now rewrite iterations_snoc, Hls, Hit.
    + rewrite length_app, Hlen. simpl. lia.
    + intros p Hp. destruct (Hsum p Hp) as [gs [Hall Hgs]].
      destruct (Hgr p Hp) as [gr [Hwrt Hacc]].
      exists (gs ++ [gr]). split.
      * apply Forall2_app; auto.
      * cbn [params set_params].
        rewrite (SGD_step_generator _ _ p (ready_optimizer_gen Hwg) Hp).
        now rewrite sgd_update_grad, Hacc, Hgs, accumulate_all_snoc.
Qed.

(** ** [train] and the evaluation cell, from a world that is set up *)

Lemma train_Ok (epochs : Z) (w : World) :
  ready w ->
  exists ls w',
    iterations (Z.to_nat epochs) w = Ok (ls, w')
    /\ length ls = Z.to_nat epochs
    /\ ready w'
    /\ train epochs w
       = Ok ((map (fun l => Tensor_item (loss_1 (fst l))) ls,
              map (fun l => Tensor_item (loss_2 (snd l))) ls), w').
Proof.
  intros Hw.
  destruct (iterations_Ok (Z.to_nat epochs) w Hw)
    as [ls [w' [Hls [Hlen [Hw' _]]]]].
  exists ls, w'. conjunctions.
  unfold train. now rewrite train_loop_iterations, Hls.
Qed.

Lemma evaluate_Ok (sample_count : Z) (w : World) :
  ready w ->
  (0 <= sample_count)%Z ->
  exists a v,
    evaluate sample_count w
    = Ok (v, set_np_random
               (snd (draw_rows random_sample (Z.to_nat sample_count)
                       (Z.to_nat (N w)) (np_random w))) w)
    /\ a = fst (draw_rows random_sample (Z.to_nat sample_count)
                 (Z.to_nat (N w)) (np_random w))
    /\ Generator_forward false generator (torch_tensor a) w = Ok (v, w)
    /\ length (val v) = Z.to_nat sample_count
    /\ Forall (fun r : vector => length r = 1%nat) (val v)
    /\ grad_fn v = None.
Proof.
  intros Hw HS. unfold evaluate. rewrite bind_gets.
  unfold np_random_rand.
  rewrite (bind_Ok _ _ _ _ _ _ _
             (np_random_fill_Ok random_sample sample_count (N w) w HS
                (ready_N Hw))).
  set (a := fst (draw_rows random_sample _ _ (np_random w))).
  set (w1 := set_np_random _ w).
  assert (Hw1 : ready w1) by now apply ready_set_np_random.
  assert (Hnoise : Forall (fun r : vector => length r = Z.to_nat (N w))
                          (val (torch_tensor a))).
  { cbn [val torch_tensor].
    pose proof (draw_rows_columns _ random_sample (Z.to_nat sample_count)
                  (Z.to_nat (N w)) (np_random w)) as H.
    fold a in H. induction H; simpl; constructor; auto.
    now rewrite length_map. }
  destruct (Generator_forward_Ok false (torch_tensor a) w1 Hw1 Hnoise
              eq_refl) as [v [Hv [Hlen [Hcol [Hoff _]]]]].
  destruct (Generator_forward_Ok false (torch_tensor a) w Hw Hnoise
              eq_refl) as [v' [Hv' _]].
  assert (v' = v).
  { revert Hv Hv'. unfold Generator_forward, F_linear, bind, gets.
    cbn [params w1 set_np_random].
    destruct (rows_have _ _); [|discriminate].
    unfold ret. congruence. }
  subst v'.
  rewrite (bind_Ok _ _ _ _ _ _ _ Hv).
  exists a, (detach v). split; [reflexivity|]. cbn [val detach grad_fn].
  conjunctions.
  - revert Hv'. unfold Generator_forward, F_linear, bind, gets, ret.
    destruct (rows_have _ _); [|discriminate].
    unfold F_leaky_relu, elementwise, detach. cbn [val grad_fn].
    intros E. injection E as <-. reflexivity.
  - rewrite Hlen. cbn [val torch_tensor]. rewrite length_map.
    apply draw_rows_length.
Qed.

(** * The claims *)

(** C1 (what the code does where the claim fails): after the set-up cell,
    [train] returns, and every entry of the two traces is the bound method
    [item] of the loss tensor of its iteration; no entry is a number, and
    the number is what calling the entry returns. *)
Theorem train_traces_hold_bound_methods (n epochs : Z) (w0 : World) :
  (0 <= n)%Z ->
  exists w1 ls w2,
    cell7_with n w0 = Ok (tt, w1)
    /\ iterations (Z.to_nat epochs) w1 = Ok (ls, w2)
    /\ train epochs w1
       = Ok ((map (fun l => Tensor_item (loss_1 (fst l))) ls,
              map (fun l => Tensor_item (loss_2 (snd l))) ls), w2)
    /\ Forall (fun l =>
                 Tensor_item (loss_1 (fst l)) <> PyFloat (lval (loss_1 (fst l)))
                 /\ call (Tensor_item (loss_1 (fst l)))
                    = Some (PyFloat (lval (loss_1 (fst l))))
                 /\ Tensor_item (loss_2 (snd l)) <> PyFloat (lval (loss_2 (snd l)))
                 /\ call (Tensor_item (loss_2 (snd l)))
                    = Some (PyFloat (lval (loss_2 (snd l)))))
              ls.
Proof.
  intros Hn.
  destruct (cell7_with_Ok n w0 Hn) as [w1 [H1 [Hw1 _]]].
  destruct (train_Ok epochs w1 Hw1) as [ls [w2 [Hls [_ [_ Htr]]]]].
  exists w1, ls, w2. conjunctions.
  apply Forall_forall. intros l _. conjunctions; discriminate.
Qed.

(** C3 (as amended): whatever was trained before, a training run applies
    to the generator the gradients of all the generator losses since the
    set-up cell.  After the set-up cell and [k] earlier iterations (the
    earlier calls of [train], [k = 0] when there is none), let the run
    begin in the world [w].  When [optimizer_gen.step()] runs in
    iteration [t + 1] of the run, the [.grad] of each generator parameter
    holds what it held in [w], namely the sum of the gradients of the
    generator losses [loss_2] of the [k] earlier iterations, with the
    gradients [g_1, ..., g_(t+1)] of this run's generator losses
    accumulated on top, and the step subtracts [lr] times this total from
    the parameter: nothing resets the generator's gradients, between
    iterations or between runs.  For [k = 0] the total is
    [g_1 + ... + g_(t+1)]. *)
Theorem generator_step_applies_the_sum_of_gradients (n : Z) (k t : nat)
    (w0 : World) :
  (0 <= n)%Z ->
  exists w1 ls0 w ls wt d wd wd' g wg wg',
    cell7_with n w0 = Ok (tt, w1)
    /\ iterations k w1 = Ok (ls0, w)
    /\ train (Z.of_nat k) w1
       = Ok ((map (fun l => Tensor_item (loss_1 (fst l))) ls0,
              map (fun l => Tensor_item (loss_2 (snd l))) ls0), w)
    /\ iterations t w = Ok (ls, wt)
    /\ discriminator_pass wt = Ok (d, wd)
    /\ optimizer_disc_step wd = Ok (tt, wd')
    /\ generator_pass (created d) wd' = Ok (g, wg)
    /\ optimizer_gen_step wg = Ok (tt, wg')
    /\ iterations (S t) w = Ok (ls ++ [(d, g)], wg')
    /\ forall p, In p (Generator_parameters generator) ->
         exists gs0 gs G,
           Forall2 (fun l gr => grad_wrt (loss_2 (snd l)) p = Some gr)
                   ls0 gs0
           /\ length gs0 = k
           /\ grad (lookup (params w) p) = sum_tensors gs0
           /\ Forall2 (fun l gr => grad_wrt (loss_2 (snd l)) p = Some gr)
                      (ls ++ [(d, g)]) gs
           /\ length gs = S t
           /\ accumulate_all (grad (lookup (params w) p)) gs = Some G
           /\ sum_tensors (gs0 ++ gs) = Some G
           /\ grad (lookup (params wg) p) = Some G
           /\ data (lookup (params wg') p)
              = tzip_ (fun v dv => fsub v (fmul (sgd_lr (optimizer_gen wg)) dv))
                      (data (lookup (params wg) p)) G.
Proof.
  intros Hn.
  destruct (cell7_with_Ok n w0 Hn) as (w1 & H1 & Hw1 & _ & _ & Hnone).
  destruct (generator_grads_after w1 k Hw1 (fun p _ => Hnone p))
    as (ls0 & w & Hls0 & Hw & Hlen0 & Hsum0).
  destruct (train_Ok (Z.of_nat k) w1 Hw1) as (ls0' & w' & Hls0' & _ & _ & Htr).
  rewrite Nat2Z.id, Hls0 in Hls0'. injection Hls0' as <- <-.
  destruct (generator_grads_from w t Hw)
    as (ls & wt & Hls & Hwt & Hlen & Hacc).
  destruct (iteration_Ok wt Hwt)
    as (d & g & wd & wg & Hd & Hg & Hit & Hwd & Hwg & _ & _ & _ & Hgr).
  exists w1, ls0, w, ls, wt, d, wd. eexists. exists g, wg. eexists.
  split; [exact H1|]. split; [exact Hls0|]. split; [exact Htr|].
  split; [exact Hls|]. split; [exact Hd|].
  split; [apply optimizer_disc_step_Ok|]. split; [exact Hg|].
  split; [apply optimizer_gen_step_Ok|]. split.
  - now rewrite iterations_snoc, Hls, Hit.
  - intros p Hp. destruct (Hsum0 p Hp) as (gs0 & Hall0 & Hgs0).
    destruct (Hacc p Hp) as (gs & Hall & Hgs).
    destruct (Hgr p Hp) as (gr & Hwrt & Hwg_p).
    assert (HG : grad (lookup (params wg) p)
                 = accumulate_all (grad (lookup (params w) p)) (gs ++ [gr])).
    { now rewrite Hwg_p, accumulate_all_snoc, Hgs. }
    assert (HS : accumulate_all (grad (lookup (params w) p)) (gs ++ [gr])
                 = sum_tensors (gs0 ++ gs ++ [gr])).
    { rewrite Hgs0. apply accumulate_all_sum. }
    destruct (sum_tensors_snoc (gs0 ++ gs) gr) as [G EG].
    rewrite <- app_assoc in EG.
    exists gs0, (gs ++ [gr]), G. conjunctions.
    + rewrite <- (Forall2_length Hall0). exact Hlen0.
    + apply Forall2_app; auto.
    + rewrite length_app, <- (Forall2_length Hall), Hlen. simpl. lia.
    + congruence.
    + congruence.
    + cbn [params set_params].
      rewrite (SGD_step_generator _ _ p (ready_optimizer_gen Hwg) Hp).
      apply sgd_update_data. congruence.
Qed.

(** C4: in every iteration of a training run, [optimizer_disc.step()]
    leaves the generator's weight and bias as they are, and
    [optimizer_gen.step()] leaves the discriminator's weight and bias as
    they are (the whole parameter, its tensor and its gradient).  The
    iteration is the one after [t] completed ones; [wd] and [wg] are the
    worlds in which the two steps are called. *)
Theorem optimizer_steps_are_isolated (n : Z) (t : nat) (w0 : World) :
  (0 <= n)%Z ->
  exists w1 ls w d wd wd' g wg wg',
    cell7_with n w0 = Ok (tt, w1)
    /\ iterations t w1 = Ok (ls, w)
    /\ discriminator_pass w = Ok (d, wd)
    /\ optimizer_disc_step wd = Ok (tt, wd')
    /\ generator_pass (created d) wd' = Ok (g, wg)
    /\ optimizer_gen_step wg = Ok (tt, wg')
    /\ iteration w = Ok ((d, g), wg')
    /\ (forall p, In p (Generator_parameters generator) ->
                  lookup (params wd') p = lookup (params wd) p)
    /\ (forall p, In p (Discriminator_parameters discriminator) ->
                  lookup (params wg') p = lookup (params wg) p).
Proof.
  intros Hn.
  destruct (cell7_with_Ok n w0 Hn) as [w1 [H1 [Hw1 _]]].
  destruct (iterations_Ok t w1 Hw1) as [ls [w [Hls [_ [Hw _]]]]].
  destruct (iteration_Ok w Hw)
    as [d [g [wd [wg [Hd [Hg [Hit [Hwd [Hwg _]]]]]]]]].
  exists w1, ls, w, d, wd. eexists. exists g, wg. eexists.
  split; [exact H1|]. split; [exact Hls|]. split; [exact Hd|].
  split; [apply optimizer_disc_step_Ok|]. split; [exact Hg|].
  split; [apply optimizer_gen_step_Ok|]. split; [exact Hit|]. split.
  - intros p Hp. cbn [params set_optimizer_disc set_params].
    apply Adam_step_other. rewrite (ready_optimizer_disc Hwd).
    now apply generator_not_discriminator.
  - intros p Hp. cbn [params set_params].
    apply SGD_step_other. rewrite (ready_optimizer_gen Hwg).
    now apply discriminator_not_generator.
Qed.

(** C5: in every iteration of a training run the discriminator is run on
    [x], the rows of the real batch followed by the rows of the fake batch,
    [BATCH_SZ] of each and [2 * BATCH_SZ] in all, and its loss is taken
    against [y], whose first [BATCH_SZ] rows are [1] and whose next
    [BATCH_SZ] rows are [0]: row [i] of [x] is real and labelled 1, row
    [BATCH_SZ + i] is fake and labelled 0. *)
Theorem discriminator_batch_is_real_then_fake (n : Z) (t : nat)
    (w0 : World) :
  (0 <= n)%Z ->
  exists w1 ls w d wd wm,
    cell7_with n w0 = Ok (tt, w1)
    /\ iterations t w1 = Ok (ls, w)
    /\ discriminator_pass w = Ok (d, wd)
    /\ Discriminator_forward true discriminator (x d) wm = Ok (out1 d, wm)
    /\ criterion (out1 d) (y d) wm = Ok (loss_1 d, wm)
    /\ val (x d) = val (real d) ++ val (created d)
    /\ length (val (real d)) = Z.to_nat BATCH_SZ
    /\ length (val (created d)) = Z.to_nat BATCH_SZ
    /\ length (val (x d)) = (2 * Z.to_nat BATCH_SZ)%nat
    /\ length (y d) = (2 * Z.to_nat BATCH_SZ)%nat
    /\ y d = repeat [fone] (Z.to_nat BATCH_SZ)
             ++ repeat [fzero] (Z.to_nat BATCH_SZ)
    /\ forall i, (i < Z.to_nat BATCH_SZ)%nat ->
         nth_error (val (x d)) i = nth_error (val (real d)) i
         /\ nth_error (y d) i = Some [fone]
         /\ nth_error (val (x d)) (Z.to_nat BATCH_SZ + i)
            = nth_error (val (created d)) i
         /\ nth_error (y d) (Z.to_nat BATCH_SZ + i) = Some [fzero].
Proof.
  intros Hn.
  destruct (cell7_with_Ok n w0 Hn) as [w1 [H1 [Hw1 _]]].
  destruct (iterations_Ok t w1 Hw1) as [ls [w [Hls [_ [Hw _]]]]].
  destruct (discriminator_pass_Ok w Hw)
    as (d & wd & Hd & _ & _ & _ & _ & _ & _ & _ & Hx & Hy & Hreal & Hfake
        & _ & _ & a0 & a1 & wm & _ & _ & _ & Ho & Hl & _).
  assert (Hxv : val (x d) = val (real d) ++ val (created d))
    by now rewrite Hx.
  assert (Hyv : y d = repeat [fone] (Z.to_nat BATCH_SZ)
                      ++ repeat [fzero] (Z.to_nat BATCH_SZ))
    by now rewrite Hy.
  exists w1, ls, w, d, wd, wm. conjunctions.
  - rewrite Hxv, length_app. lia.
  - rewrite Hyv, length_app, !repeat_length. lia.
  - intros i Hi. rewrite Hxv, Hyv. conjunctions.
    + apply nth_error_app1. lia.
    + rewrite nth_error_app1 by (rewrite repeat_length; lia).
      now apply nth_error_repeat.
    + rewrite nth_error_app2 by lia. f_equal. lia.
    + rewrite nth_error_app2 by (rewrite repeat_length; lia).
      rewrite repeat_length.
      replace (Z.to_nat BATCH_SZ + i - Z.to_nat BATCH_SZ)%nat with i by lia.
      now apply nth_error_repeat.
Qed.

(** C6: for [epochs >= 0], after the set-up cell, [train(epochs)] returns
    a pair of lists, each of length [epochs]. *)
Theorem train_traces_have_length_epochs (n epochs : Z) (w0 : World) :
  (0 <= n)%Z ->
  (0 <= epochs)%Z ->
  exists w1 loss_D loss_G w2,
    cell7_with n w0 = Ok (tt, w1)
    /\ train epochs w1 = Ok ((loss_D, loss_G), w2)
    /\ Z.of_nat (length loss_D) = epochs
    /\ Z.of_nat (length loss_G) = epochs.
Proof.
  intros Hn He.
  destruct (cell7_with_Ok n w0 Hn) as [w1 [H1 [Hw1 _]]].
  destruct (train_Ok epochs w1 Hw1) as [ls [w2 [_ [Hlen [_ Htr]]]]].
  eexists w1, _, _, w2. split; [exact H1|]. split; [exact Htr|].
  rewrite !length_map, Hlen. lia.
Qed.

Lemma Discriminator_forward_val (grad_enabled : bool) (v : Var) (w : World) :
  ready w ->
  Forall (fun r : vector => length r = 1%nat) (val v) ->
  exists row b0 out,
    data (lookup (params w) discriminator_fc_weight) = T2 [row]
    /\ data (lookup (params w) discriminator_fc_bias) = T1 [b0]
    /\ Discriminator_forward grad_enabled discriminator v w = Ok (out, w)
    /\ val out = map (fun r => [sigmoid (fadd (dot r row) b0)]) (val v).
Proof.
  intros Hw Hv.
  destruct (shape_row _ _ (ready_discriminator_weight Hw))
    as [row [HW Hrow]].
  destruct (shape_single _ (ready_discriminator_bias Hw)) as [b0 Hb].
  rewrite <- Hrow in Hv.
  destruct (F_linear_Ok grad_enabled (Discriminator_fc discriminator) v w
              row b0 HW Hb Hv) as [y [Hy [Hval _]]].
  exists row, b0. eexists. split; [exact HW|]. split; [exact Hb|].
  unfold Discriminator_forward. rewrite (bind_Ok _ _ _ _ _ _ _ Hy).
  split; [reflexivity|].
  unfold F_sigmoid. rewrite elementwise_val, Hval, map_map. reflexivity.
Qed.

Lemma sigmoid_within_0_1 (v : F) : sound_rounding -> within_0_1 (sigmoid v).
Proof. intros [Hadd Hdiv]. apply Hdiv, Hadd. Qed.


Lemma concat_columns (m : matrix) :
  Forall (fun r : vector => length r = 1%nat) m ->
  length (concat m) = length m.
Proof.
  intros H. induction H as [|r m Hr Hm IH]; auto.
  cbn [concat]. rewrite length_app, IH, Hr. reflexivity.
Qed.

(** C9 (as amended): after the set-up cell and any call of [train], the
    evaluation cell run for [sample_count >= 1] samples draws its noise
    batch [a] from numpy's random state, [sample_count] rows of [N]
    uniform draws each, row by row, and leaves that state after these
    draws; it returns the generator's output on [a], computed without a
    graph; the output is 2-D, of shape [[sample_count, 1]] (not
    flattened), with [sample_count] entries in all; [N], the parameters,
    the optimizers and torch's generator are as before: only numpy's
    random state moves. *)
Theorem evaluate_returns_one_column (n epochs sample_count : Z)
    (w0 : World) :
  (0 <= n)%Z ->
  (1 <= sample_count)%Z ->
  exists w1 tr w2 a v w3,
    cell7_with n w0 = Ok (tt, w1)
    /\ train epochs w1 = Ok (tr, w2)
    /\ evaluate sample_count w2 = Ok (v, w3)
    /\ a = fst (draw_rows random_sample (Z.to_nat sample_count) (Z.to_nat n)
                 (np_random w2))
    /\ np_random w3
       = snd (draw_rows random_sample (Z.to_nat sample_count) (Z.to_nat n)
                (np_random w2))
    /\ length a = Z.to_nat sample_count
    /\ Forall (fun r : vector => length r = Z.to_nat n) a
    /\ Generator_forward false generator (torch_tensor a) w2 = Ok (v, w2)
    /\ size v = [Z.to_nat sample_count; 1%nat]
    /\ length (concat (val v)) = Z.to_nat sample_count
    /\ grad_fn v = None
    /\ params w3 = params w2
    /\ optimizer_gen w3 = optimizer_gen w2
    /\ optimizer_disc w3 = optimizer_disc w2
    /\ torch_rng w3 = torch_rng w2
    /\ N w3 = N w2.
Proof.
  intros Hn HS.
  destruct (cell7_with_Ok n w0 Hn) as (w1 & H1 & Hw1 & HN1 & _).
  destruct (iterations_Ok (Z.to_nat epochs) w1 Hw1)
    as (ls & w2 & Hls & _ & Hw2 & HN2 & _).
  assert (Htr : train epochs w1
                = Ok ((map (fun l => Tensor_item (loss_1 (fst l))) ls,
                       map (fun l => Tensor_item (loss_2 (snd l))) ls), w2)).
  { unfold train. now rewrite train_loop_iterations, Hls. }
  destruct (evaluate_Ok sample_count w2 Hw2 ltac:(lia))
    as (a & v & Hev & Ha & Hfw & Hlen & Hcol & Hleaf).
  eexists w1, _, w2, a, v, _.
  split; [exact H1|]. split; [exact Htr|]. split; [exact Hev|].
  cbn [params optimizer_gen optimizer_disc torch_rng np_random N
       set_np_random].
  assert (HN : N w2 = n) by congruence.
  rewrite HN in Ha.
  conjunctions.
  - now rewrite HN.
  - subst a. apply draw_rows_length.
  - subst a. apply draw_rows_columns.
  - unfold size. cbn [shape]. rewrite Hlen.
    destruct (val v) as [|r m];
      [cbn [length] in Hlen; lia|].
    inversion Hcol; subst. cbn [hd]. congruence.
  - now rewrite concat_columns.
Qed.


(** * Further properties of the cells *)

(** ** Calling [train] again *)

Lemma iterations_app (m n : nat) (w : World) :
  iterations (m + n) w =
  match iterations m w with
  | Ok (ls1, w1) =>
      match iterations n w1 with
      | Ok (ls2, w2) => Ok (ls1 ++ ls2, w2)
      | Raise e => Raise e
      end
  | Raise e => Raise e
  end.
Proof.
  revert w. induction m as [|m IH]; intros w.
  - cbn [Nat.add iterations]. unfold ret.
    now destruct (iterations n w) as [[ls2 w2]|e].
  - cbn [Nat.add]. rewrite (iterations_S (m + n) w), (iterations_S m w).
    destruct (iteration w) as [[l w1]|e]; auto.
    rewrite IH.
    destruct (iterations m w1) as [[ls1 w2]|e]; auto.
    now destruct (iterations n w2) as [[ls2 w3]|e].
Qed.

(** X1: [train] keeps all its state in the globals, so calling
    [train(e1)] and then [train(e2)] is one run of [e1 + e2] iterations:
    the same final world, and traces that are the two calls' traces one
    after the other (or the same exception).  A second call continues the
    training; it does not start again. *)
Theorem train_again_continues (e1 e2 : Z) (w : World) :
  (0 <= e1)%Z ->
  (0 <= e2)%Z ->
  bind (train e1)
       (fun r1 => bind (train e2)
                       (fun r2 => ret (fst r1 ++ fst r2, snd r1 ++ snd r2))) w
  = train (e1 + e2) w.
Proof.
  intros H1 H2. unfold train, bind, ret.
  rewrite Z2Nat.inj_add by assumption.
  rewrite !train_loop_iterations, iterations_app.
  destruct (iterations (Z.to_nat e1) w) as [[ls1 w1]|e]; auto.
  rewrite train_loop_iterations.
  destruct (iterations (Z.to_nat e2) w1) as [[ls2 w2]|e]; auto.
  cbn [fst snd app]. now rewrite !map_app.
Qed.

(** ** What the two passes do to the gradients and to numpy's state *)

Lemma clear_grads_discriminator (ps : PerParam Param) (p : ParamId) :
  In p (Discriminator_parameters discriminator) ->
  grad (lookup (clear_grads (Discriminator_parameters discriminator) ps) p)
  = None.
Proof. intros [<-|[<-|[]]]; reflexivity. Qed.

Lemma discriminator_pass_gradients (w : World) :
  ready w ->
  exists d wd,
    discriminator_pass w = Ok (d, wd)
    /\ noise d
       = torch_tensor
           (fst (draw_rows random_sample (Z.to_nat BATCH_SZ)
                   (Z.to_nat (N w)) (np_random w)))
    /\ real d
       = torch_tensor
           (fst (draw_rows standard_normal (Z.to_nat BATCH_SZ) (Z.to_nat 1)
                   (snd (draw_rows random_sample (Z.to_nat BATCH_SZ)
                           (Z.to_nat (N w)) (np_random w)))))
    /\ np_random wd
       = snd (draw_rows standard_normal (Z.to_nat BATCH_SZ) (Z.to_nat 1)
                (snd (draw_rows random_sample (Z.to_nat BATCH_SZ)
                        (Z.to_nat (N w)) (np_random w))))
    /\ grad_fn (x d) = None
    /\ (forall p, In p (Discriminator_parameters discriminator) ->
          exists g,
            grad_wrt (loss_1 d) p = Some g
            /\ grad (lookup (params wd) p) = Some g)
    /\ (forall p, In p (Generator_parameters generator) ->
                  grad_wrt (loss_1 d) p = None).
Proof.
  intros Hw. unfold discriminator_pass.
  rewrite (bind_Ok _ _ _ _ _ _ _ (zero_grad_Ok _ w)).
  set (w1 := set_params _ w).
  assert (Hw1 : ready w1).
  { apply ready_set_params; auto. intros p. now rewrite clear_grads_data. }
  rewrite bind_gets. change (N w1) with (N w).
  unfold generate_uniform, np_random_rand.
  rewrite (bind_Ok _ _ _ _ _ _ _
             (np_random_fill_Ok random_sample BATCH_SZ (N w) w1
                BATCH_SZ_nonneg (ready_N Hw))).
  change (np_random w1) with (np_random w).
  set (a0 := fst (draw_rows random_sample _ _ (np_random w))).
  set (w2 := set_np_random _ w1).
  assert (Hw2 : ready w2) by now apply ready_set_np_random.
  unfold generate_gaussian, np_random_randn.
  rewrite (bind_Ok _ _ _ _ _ _ _
             (np_random_fill_Ok standard_normal BATCH_SZ 1 w2
                BATCH_SZ_nonneg ltac:(lia))).
  set (a1 := fst (draw_rows standard_normal _ _ (np_random w2))).
  set (w3 := set_np_random _ w2).
  assert (Hw3 : ready w3) by now apply ready_set_np_random.
  assert (Hnoise : Forall (fun r : vector => length r = Z.to_nat (N w3))
                          (val (torch_tensor a0))).
  { change (N w3) with (N w). cbn [val torch_tensor].
    pose proof (draw_rows_columns _ random_sample (Z.to_nat BATCH_SZ)
                  (Z.to_nat (N w)) (np_random w)) as H.
    fold a0 in H. induction H; simpl; constructor; auto.
    now rewrite length_map. }
  destruct (Generator_forward_Ok true (torch_tensor a0) w3 Hw3 Hnoise
              eq_refl) as [c [Hc [Hclen [Hccol [_ Hctr]]]]].
  rewrite (bind_Ok _ _ _ _ _ _ _ Hc).
  assert (Hreal : Forall (fun r : vector => length r = 1%nat)
                         (val (torch_tensor a1))).
  { cbn [val torch_tensor].
    pose proof (draw_rows_columns _ standard_normal (Z.to_nat BATCH_SZ)
                  (Z.to_nat 1) (np_random w2)) as H.
    fold a1 in H. induction H; simpl; constructor; auto.
    now rewrite length_map. }
  assert (Hreal_len : length (val (torch_tensor a1)) = Z.to_nat BATCH_SZ).
  { cbn [val torch_tensor]. rewrite length_map. apply draw_rows_length. }
  assert (Hc_len : length (val c) = Z.to_nat BATCH_SZ).
  { rewrite Hclen. cbn [val torch_tensor]. rewrite length_map.
    apply draw_rows_length. }
  set (xx := torch_concat (torch_tensor a1) (detach c)).
  assert (Hxcol : Forall (fun r : vector => length r = 1%nat) (val xx)).
  { cbn [val xx torch_concat detach]. apply Forall_app. now split. }
  assert (Hxleaf : forall g, map fst (propagate xx g) = []).
  { intros g. now rewrite propagate_leaf. }
  destruct (Discriminator_forward_Ok xx w3 [] Hw3 Hxcol Hxleaf)
    as [o1 [Ho1 [Holen [Hocol Hotr]]]].
  rewrite (bind_Ok _ _ _ _ _ _ _ Ho1).
  assert (Hsame : same_shape (val o1)
                    (torch_ones BATCH_SZ ++ torch_zeros BATCH_SZ) = true).
  { apply same_shape_columns; auto.
    - apply Forall_app. split; apply columns_repeat.
    - rewrite Holen. cbn [val xx torch_concat detach].
      rewrite !length_app, torch_ones_length, torch_zeros_length.
      now rewrite Hreal_len, Hc_len. }
  destruct (criterion_Ok o1 _ w3 Hsame) as [l1 [Hl1 Hltr]].
  rewrite (bind_Ok _ _ _ _ _ _ _ Hl1).
  destruct (backward_Ok l1 w3 _ (Hltr _ Hotr)) as [gs [Hb [Hgs Hwrt]]].
  rewrite (bind_Ok _ _ _ _ _ _ _ Hb).
  rewrite app_nil_r in Hgs.
  eexists. eexists. split; [reflexivity|].
  cbn [noise real x loss_1 np_random set_params set_np_random].
  conjunctions.
  - intros p Hp.
    assert (Hnd : NoDup (map fst gs)).
    { rewrite Hgs. repeat constructor; simpl; intuition discriminate. }
    assert (Hin : In p (map fst gs)) by now rewrite Hgs.
    destruct (contrib_unique p gs Hnd Hin) as [g Hg].
    exists g. split; [now rewrite Hwrt, Hg|].
    cbn [params set_params]. rewrite accumulate_grads_lookup. cbn [grad].
    rewrite Hg. cbn [w3 w2 w1 params set_params set_np_random].
    now rewrite clear_grads_discriminator.
  - intros p Hp. rewrite Hwrt. apply contrib_not_in.
    rewrite Hgs. now apply generator_not_discriminator.
Qed.

Lemma generator_pass_gradients (w : World) (c : Var) :
  ready w ->
  length (val c) = Z.to_nat BATCH_SZ ->
  Forall (fun r : vector => length r = 1%nat) (val c) ->
  tracked (grad_fn c) (Generator_parameters generator) ->
  exists g wg,
    generator_pass c w = Ok (g, wg)
    /\ tracked (lgrad_fn (loss_2 g))
         (Discriminator_parameters discriminator
          ++ Generator_parameters generator)
    /\ (forall p, In p (Discriminator_parameters discriminator) ->
          exists gr,
            grad_wrt (loss_2 g) p = Some gr
            /\ grad (lookup (params wg) p) = Some gr).
Proof.
  intros Hw Hclen Hccol Hctr. unfold generator_pass.
  rewrite (bind_Ok _ _ _ _ _ _ _ (zero_grad_Ok _ w)).
  set (w1 := set_params _ w).
  assert (Hw1 : ready w1).
  { apply ready_set_params; auto. intros p. now rewrite clear_grads_data. }
  destruct (Discriminator_forward_Ok c w1 _ Hw1 Hccol
              (fun g => propagate_tracked c _ g Hctr))
    as [o2 [Ho2 [Holen [Hocol Hotr]]]].
  rewrite (bind_Ok _ _ _ _ _ _ _ Ho2).
  assert (Hsame : same_shape (val o2) (torch_zeros BATCH_SZ) = true).
  { apply same_shape_columns; auto.
    - apply columns_repeat.
    - now rewrite Holen, torch_zeros_length. }
  destruct (criterion_Ok o2 _ w1 Hsame) as [l2 [Hl2 Hltr]].
  rewrite (bind_Ok _ _ _ _ _ _ _ Hl2).
  destruct (backward_Ok l2 w1 _ (Hltr _ Hotr)) as [gs [Hb [Hgs Hwrt]]].
  rewrite (bind_Ok _ _ _ _ _ _ _ Hb).
  eexists. eexists. split; [reflexivity|]. cbn [loss_2].
  split; [now apply Hltr|].
  intros p Hp.
  assert (Hnd : NoDup (map fst gs)).
  { rewrite Hgs. repeat constructor; simpl; intuition discriminate. }
  assert (Hin : In p (map fst gs)).
  { rewrite Hgs. apply in_or_app. now left. }
  destruct (contrib_unique p gs Hnd Hin) as [gr Hgr].
  exists gr. split; [now rewrite Hwrt, Hgr|].
  cbn [params set_params]. rewrite accumulate_grads_lookup. cbn [grad].
  rewrite Hgr. cbn [w1 params set_params].
  now rewrite clear_grads_discriminator.
Qed.

(** ** [Adam.step()] on the discriminator's parameters *)

Lemma adam_update_some (o : Adam) (p : ParamId) (ps : PerParam Param)
    (sts : PerParam (option AdamState)) (g : tensor) :
  grad (lookup ps p) = Some g ->
  adam_update o p (ps, sts) =
  (update ps p
     {| data :=
          tzip_ fsub (data (lookup ps p))
            (adam_direction o
               (adam_moments o
                  match lookup sts p with
                  | Some st => st
                  | None => {| step_count := 0;
                               exp_avg := zeros_like (data (lookup ps p));
                               exp_avg_sq := zeros_like (data (lookup ps p)) |}
                  end g));
        grad := Some g |},
   update sts p
     (Some (adam_moments o
              match lookup sts p with
              | Some st => st
              | None => {| step_count := 0;
                           exp_avg := zeros_like (data (lookup ps p));
                           exp_avg_sq := zeros_like (data (lookup ps p)) |}
              end g))).
Proof. intros H. unfold adam_update. now rewrite H. Qed.

Lemma Adam_step_discriminator (o : Adam) (ps : PerParam Param) :
  adam_params o = Discriminator_parameters discriminator ->
  (forall p, In p (Discriminator_parameters discriminator) ->
             exists g, grad (lookup ps p) = Some g) ->
  (forall p g, In p (Discriminator_parameters discriminator) ->
     grad (lookup ps p) = Some g ->
     lookup (fst (Adam_step o ps)) p
     = {| data := tzip_ fsub (data (lookup ps p))
                    (adam_direction o
                       (adam_moments o (adam_state_before o ps p) g));
          grad := Some g |}
     /\ lookup (adam_state (snd (Adam_step o ps))) p
        = Some (adam_moments o (adam_state_before o ps p) g))
  /\ (forall p, In p (Generator_parameters generator) ->
        lookup (adam_state (snd (Adam_step o ps))) p
        = lookup (adam_state o) p).
Proof.
  intros Ho Hg.
  destruct (Hg discriminator_fc_weight) as [ga Ha]; [now left|].
  destruct (Hg discriminator_fc_bias) as [gb Hb]; [now right; left|].
  unfold Adam_step. rewrite Ho.
  cbn [Discriminator_parameters Linear_parameters Discriminator_fc
       discriminator weight bias fold_left].
  rewrite (adam_update_some o discriminator_fc_weight ps (adam_state o) ga Ha).
  erewrite (adam_update_some o discriminator_fc_bias) by exact Hb.
  cbn [fst snd adam_state]. split.
  - intros p g [<-|[<-|[]]] Hp;
      cbn [weight bias Discriminator_fc discriminator] in Hp.
    + assert (g = ga) by congruence. subst g. split; reflexivity.
    + assert (g = gb) by congruence. subst g. split; reflexivity.
  - intros p [<-|[<-|[]]]; reflexivity.
Qed.

(** ** One iteration, with the optimizers and the random sources *)

Lemma iteration_effects (w : World) :
  ready w ->
  exists d g wd wg,
    discriminator_pass w = Ok (d, wd)
    /\ generator_pass (created d) (after_optimizer_disc_step wd) = Ok (g, wg)
    /\ iteration w = Ok ((d, g), after_optimizer_gen_step wg)
    /\ ready wd
    /\ ready wg
    /\ ready (after_optimizer_gen_step wg)
    /\ N (after_optimizer_gen_step wg) = N w
    /\ torch_rng (after_optimizer_gen_step wg) = torch_rng w
    /\ optimizer_gen (after_optimizer_gen_step wg) = optimizer_gen w
    /\ optimizer_disc (after_optimizer_gen_step wg)
       = snd (Adam_step (optimizer_disc w) (params wd))
    /\ noise d
       = torch_tensor
           (fst (draw_rows random_sample (Z.to_nat BATCH_SZ)
                   (Z.to_nat (N w)) (np_random w)))
    /\ real d
       = torch_tensor
           (fst (draw_rows standard_normal (Z.to_nat BATCH_SZ) (Z.to_nat 1)
                   (snd (draw_rows random_sample (Z.to_nat BATCH_SZ)
                           (Z.to_nat (N w)) (np_random w)))))
    /\ np_random (after_optimizer_gen_step wg)
       = snd (draw_rows standard_normal (Z.to_nat BATCH_SZ) (Z.to_nat 1)
                (snd (draw_rows random_sample (Z.to_nat BATCH_SZ)
                        (Z.to_nat (N w)) (np_random w))))
    /\ (forall p, In p (Discriminator_parameters discriminator) ->
          exists g1, grad (lookup (params wd) p) = Some g1).
Proof.
  intros Hw.
  destruct (discriminator_pass_Ok w Hw)
    as (d & wd & Hd & Hwd & HN & Hog & Hod & Htr & _ & _ & _ & _ & _ & Hclen
        & Hccol & Hctr & _).
  destruct (discriminator_pass_gradients w Hw)
    as (d' & wd' & Hd' & Hnoise & Hreal & Hnp & _ & Hgr & _).
  rewrite Hd in Hd'. injection Hd' as <- <-.
  pose proof (ready_optimizer_disc_step wd Hwd) as Hwd2.
  fold (after_optimizer_disc_step wd) in Hwd2.
  destruct (generator_pass_Ok (after_optimizer_disc_step wd) (created d)
              Hwd2 Hclen Hccol Hctr)
    as (g & wg & Hg & Hwg & HN' & Hog' & Hod' & Hnp' & Htr' & _).
  exists d, g, wd, wg.
  unfold after_optimizer_gen_step.
  cbn [N torch_rng optimizer_gen optimizer_disc np_random set_params].
  conjunctions.
  - unfold iteration.
    rewrite (bind_Ok _ _ _ _ _ _ _ Hd).
    rewrite (bind_Ok _ _ _ _ _ _ _ (optimizer_disc_step_Ok wd)).
    fold (after_optimizer_disc_step wd).
    rewrite (bind_Ok _ _ _ _ _ _ _ Hg).
    now rewrite (bind_Ok _ _ _ _ _ _ _ (optimizer_gen_step_Ok wg)).
  - now apply ready_optimizer_gen_step.
  - now rewrite HN'.
  - now rewrite Htr'.
  - now rewrite Hog'.
  - rewrite Hod'. unfold after_optimizer_disc_step.
    cbn [optimizer_disc set_optimizer_disc]. now rewrite Hod.
  - now rewrite Hnp'.
  - intros p Hp. destruct (Hgr p Hp) as (g1 & _ & Hg1). now exists g1.
Qed.

(** ** The loop, with the optimizers and the random sources *)

Lemma adam_steps_after (o : Adam) (ps : PerParam Param) (p : ParamId) :
  adam_params o = Discriminator_parameters discriminator ->
  (forall q, In q (Discriminator_parameters discriminator) ->
             exists gq, grad (lookup ps q) = Some gq) ->
  In p (Discriminator_parameters discriminator) ->
  adam_steps (snd (Adam_step o ps)) p = S (adam_steps o p).
Proof.
  intros Ho Hg Hp. destruct (Hg p Hp) as [gp Hgp].
  destruct (Adam_step_discriminator o ps Ho Hg) as [Hd _].
  destruct (Hd p gp Hp Hgp) as [_ Hst].
  unfold adam_steps. rewrite Hst. cbn [adam_moments step_count].
  unfold adam_state_before. now destruct (lookup (adam_state o) p).
Qed.

Lemma iterations_effects (t : nat) (w : World) :
  ready w ->
  exists ls w',
    iterations t w = Ok (ls, w')
    /\ ready w'
    /\ N w' = N w
    /\ torch_rng w' = torch_rng w
    /\ optimizer_gen w' = optimizer_gen w
    /\ adam_lr (optimizer_disc w') = adam_lr (optimizer_disc w)
    /\ adam_beta1 (optimizer_disc w') = adam_beta1 (optimizer_disc w)
    /\ adam_beta2 (optimizer_disc w') = adam_beta2 (optimizer_disc w)
    /\ adam_eps (optimizer_disc w') = adam_eps (optimizer_disc w)
    /\ map (fun l => (noise (fst l), real (fst l))) ls
       = fst (batches (N w) t (np_random w))
    /\ np_random w' = snd (batches (N w) t (np_random w))
    /\ (forall p, In p (Discriminator_parameters discriminator) ->
          adam_steps (optimizer_disc w') p
          = (adam_steps (optimizer_disc w) p + t)%nat)
    /\ (forall p, In p (Generator_parameters generator) ->
          lookup (adam_state (optimizer_disc w')) p
          = lookup (adam_state (optimizer_disc w)) p).
Proof.
  revert w. induction t as [|t IH]; intros w Hw.
  - exists [], w. cbn [iterations batches fst snd map]. conjunctions.
  - destruct (iteration_effects w Hw)
      as (d & g & wd & wg & Hd & Hg & Hit & Hwd & Hwg & Hw1 & HN & Htr & Hog
          & Hod & Hnoise & Hreal & Hnp & Hgr).
    set (w1 := after_optimizer_gen_step wg) in *.
    destruct (IH w1 Hw1)
      as (ls & w' & Hls & Hw' & HN' & Htr' & Hog' & Hlr & Hb1 & Hb2 & Heps
          & Hbat & Hnp' & Hsteps & Hgen).
    exists ((d, g) :: ls), w'.
    rewrite iterations_S, Hit, Hls.
    rewrite HN, Hnp in Hbat, Hnp'.
    cbn [batches].
    destruct (draw_rows random_sample (Z.to_nat BATCH_SZ) (Z.to_nat (N w))
                (np_random w)) as [a0 s1].
    cbn [fst snd] in *.
    destruct (draw_rows standard_normal (Z.to_nat BATCH_SZ) (Z.to_nat 1) s1)
      as [a1 s2].
    cbn [fst snd] in *.
    destruct (batches (N w) t s2) as [bs s3].
    cbn [fst snd map] in *.
    assert (Ho : adam_params (optimizer_disc w)
                 = Discriminator_parameters discriminator)
      by apply (ready_optimizer_disc Hw).
    conjunctions; try congruence.
    + rewrite Hlr, Hod. reflexivity.
    + rewrite Hb1, Hod. reflexivity.
    + rewrite Hb2, Hod. reflexivity.
    + rewrite Heps, Hod. reflexivity.
    + intros p Hp. rewrite (Hsteps p Hp), Hod.
      rewrite (adam_steps_after _ _ p Ho Hgr Hp). lia.
    + intros p Hp. rewrite (Hgen p Hp), Hod.
      now apply (Adam_step_discriminator _ _ Ho Hgr).
Qed.

Lemma cell7_with_fresh (n : Z) (w0 : World) :
  (0 <= n)%Z ->
  exists w1,
    cell7_with n w0 = Ok (tt, w1)
    /\ ready w1
    /\ N w1 = n
    /\ np_random w1 = np_random w0
    /\ (forall p, grad (lookup (params w1) p) = None)
    /\ optimizer_gen w1
       = {| sgd_params := Generator_parameters generator;
            sgd_lr := lit (1 # 100) |}
    /\ optimizer_disc w1
       = {| adam_params := Discriminator_parameters discriminator;
            adam_lr := lit (1 # 100);
            adam_beta1 := lit (9 # 10);
            adam_beta2 := lit (999 # 1000);
            adam_eps := lit (1 # 100000000);
            adam_state := tabulate (fun _ => None) |}.
Proof.
  intros Hn.
  destruct (cell7_with_Ok n w0 Hn) as (w1 & H1 & Hw1 & HN & Hnp & Hnone).
  exists w1. conjunctions.
  - rewrite cell7_with_eq in H1.
    replace (n <? 0)%Z with false in H1 by (symmetry; apply Z.ltb_ge; lia).
    injection H1 as <-. reflexivity.
  - rewrite cell7_with_eq in H1.
    replace (n <? 0)%Z with false in H1 by (symmetry; apply Z.ltb_ge; lia).
    injection H1 as <-. reflexivity.
Qed.

(** X2: in every iteration of a training run the batch [x] given to the
    discriminator carries no graph ([created] enters it detached), so
    [loss_1] has no gradient with respect to the generator's parameters and
    the whole pass up to [loss_1.backward()] leaves the generator's weight
    and bias, tensors and [.grad], as they were; [created] itself stays
    attached to the generator's parameters for the generator update. *)
Theorem discriminator_pass_spares_the_generator (n : Z) (t : nat)
    (w0 : World) :
  (0 <= n)%Z ->
  exists w1 ls w d wd,
    cell7_with n w0 = Ok (tt, w1)
    /\ iterations t w1 = Ok (ls, w)
    /\ discriminator_pass w = Ok (d, wd)
    /\ x d = torch_concat (real d) (detach (created d))
    /\ grad_fn (x d) = None
    /\ tracked (grad_fn (created d)) (Generator_parameters generator)
    /\ forall p, In p (Generator_parameters generator) ->
         grad_wrt (loss_1 d) p = None
         /\ lookup (params wd) p = lookup (params w) p.
Proof.
  intros Hn.
  destruct (cell7_with_Ok n w0 Hn) as (w1 & H1 & Hw1 & _).
  destruct (iterations_Ok t w1 Hw1) as (ls & w & Hls & _ & Hw & _).
  destruct (discriminator_pass_Ok w Hw)
    as (d & wd & Hd & _ & _ & _ & _ & _ & Hgen & _ & Hx & _ & _ & _ & _
        & Hctr & _).
  destruct (discriminator_pass_gradients w Hw)
    as (d' & wd' & Hd' & _ & _ & _ & Hleaf & _ & Hnone).
  rewrite Hd in Hd'. injection Hd' as <- <-.
  exists w1, ls, w, d, wd. conjunctions.
Qed.

(** X3: in every iteration of a training run, when [optimizer_disc.step()]
    runs, the [.grad] of each discriminator parameter is exactly the
    gradient of this iteration's [loss_1] (the loop starts with
    [discriminator.zero_grad()], so nothing of earlier iterations is left),
    and the step moves the parameter by Adam's direction for this gradient
    and the moments kept so far. *)
Theorem discriminator_step_applies_this_loss_gradient (n : Z) (t : nat)
    (w0 : World) :
  (0 <= n)%Z ->
  exists w1 ls w d wd,
    cell7_with n w0 = Ok (tt, w1)
    /\ iterations t w1 = Ok (ls, w)
    /\ discriminator_pass w = Ok (d, wd)
    /\ optimizer_disc_step wd = Ok (tt, after_optimizer_disc_step wd)
    /\ forall p, In p (Discriminator_parameters discriminator) ->
         exists g1,
           grad_wrt (loss_1 d) p = Some g1
           /\ grad (lookup (params wd) p) = Some g1
           /\ data (lookup (params (after_optimizer_disc_step wd)) p)
              = tzip_ fsub (data (lookup (params wd) p))
                  (adam_direction (optimizer_disc wd)
                     (adam_moments (optimizer_disc wd)
                        (adam_state_before (optimizer_disc wd) (params wd) p)
                        g1)).
Proof.
  intros Hn.
  destruct (cell7_with_Ok n w0 Hn) as (w1 & H1 & Hw1 & _).
  destruct (iterations_Ok t w1 Hw1) as (ls & w & Hls & _ & Hw & _).
  destruct (discriminator_pass_Ok w Hw) as (d & wd & Hd & Hwd & _).
  destruct (discriminator_pass_gradients w Hw)
    as (d' & wd' & Hd' & _ & _ & _ & _ & Hgr & _).
  rewrite Hd in Hd'. injection Hd' as <- <-.
  exists w1, ls, w, d, wd. conjunctions.
  intros p Hp. destruct (Hgr p Hp) as (g1 & Hwrt & Hg1).
  exists g1. conjunctions.
  assert (Hsome : forall q, In q (Discriminator_parameters discriminator) ->
                            exists gq, grad (lookup (params wd) q) = Some gq).
  { intros q Hq. destruct (Hgr q Hq) as (gq & _ & Hgq). now exists gq. }
  destruct (Adam_step_discriminator (optimizer_disc wd) (params wd)
              (ready_optimizer_disc Hwd) Hsome) as [Hstep _].
  destruct (Hstep p g1 Hp Hg1) as [Hp' _].
  unfold after_optimizer_disc_step.
  cbn [params set_optimizer_disc set_params]. now rewrite Hp'.
Qed.

(** X4: in every iteration of a training run [created] is computed once,
    by the generator as it is at the start of the iteration; the generator
    loss [loss_2] is taken on the output of the discriminator as it is
    after this iteration's [optimizer_disc.step()]; its graph ends in the
    parameters of both networks, so [loss_2.backward()] also fills the
    discriminator's [.grad], which is still there when the iteration
    ends. *)
Theorem generator_loss_uses_the_updated_discriminator (n : Z) (t : nat)
    (w0 : World) :
  (0 <= n)%Z ->
  exists w1 ls w d wd g wg wm0 wm,
    cell7_with n w0 = Ok (tt, w1)
    /\ iterations t w1 = Ok (ls, w)
    /\ discriminator_pass w = Ok (d, wd)
    /\ generator_pass (created d) (after_optimizer_disc_step wd) = Ok (g, wg)
    /\ iteration w = Ok ((d, g), after_optimizer_gen_step wg)
    /\ Generator_forward true generator (noise d) wm0 = Ok (created d, wm0)
    /\ (forall p, data (lookup (params wm0) p) = data (lookup (params w) p))
    /\ Discriminator_forward true discriminator (created d) wm
       = Ok (out2 g, wm)
    /\ criterion (out2 g) (torch_zeros BATCH_SZ) wm = Ok (loss_2 g, wm)
    /\ (forall p, data (lookup (params wm) p)
                  = data (lookup (params (after_optimizer_disc_step wd)) p))
    /\ tracked (lgrad_fn (loss_2 g))
         (Discriminator_parameters discriminator
          ++ Generator_parameters generator)
    /\ forall p, In p (Discriminator_parameters discriminator) ->
         exists gr,
           grad_wrt (loss_2 g) p = Some gr
           /\ grad (lookup (params (after_optimizer_gen_step wg)) p)
              = Some gr.
Proof.
  intros Hn.
  destruct (cell7_with_Ok n w0 Hn) as (w1 & H1 & Hw1 & _).
  destruct (iterations_Ok t w1 Hw1) as (ls & w & Hls & _ & Hw & _).
  destruct (discriminator_pass_Ok w Hw)
    as (d & wd & Hd & Hwd & _ & _ & _ & _ & _ & _ & _ & _ & _ & Hclen
        & Hccol & Hctr & a0 & a1 & wm0 & _ & _ & Hfw & _ & _ & Hdata0).
  pose proof (ready_optimizer_disc_step wd Hwd) as Hwd2.
  fold (after_optimizer_disc_step wd) in Hwd2.
  destruct (generator_pass_Ok (after_optimizer_disc_step wd) (created d)
              Hwd2 Hclen Hccol Hctr)
    as (g & wg & Hg & Hwg & _ & _ & _ & _ & _ & _ & _ & wm & Ho2 & Hl2
        & Hdata).
  destruct (generator_pass_gradients (after_optimizer_disc_step wd)
              (created d) Hwd2 Hclen Hccol Hctr)
    as (g' & wg' & Hg' & Htr & Hgr).
  rewrite Hg in Hg'. injection Hg' as <- <-.
  exists w1, ls, w, d, wd, g, wg, wm0, wm. conjunctions.
  - unfold iteration.
    rewrite (bind_Ok _ _ _ _ _ _ _ Hd).
    rewrite (bind_Ok _ _ _ _ _ _ _ (optimizer_disc_step_Ok wd)).
    fold (after_optimizer_disc_step wd).
    rewrite (bind_Ok _ _ _ _ _ _ _ Hg).
    now rewrite (bind_Ok _ _ _ _ _ _ _ (optimizer_gen_step_Ok wg)).
  - intros p Hp. destruct (Hgr p Hp) as (gr & Hwrt & Hgrad).
    exists gr. split; auto.
    unfold after_optimizer_gen_step. cbn [params set_params].
    rewrite SGD_step_other; auto.
    rewrite (ready_optimizer_gen Hwg).
    now apply discriminator_not_generator.
Qed.

(** X5: the set-up cell draws nothing from numpy and [train] draws nothing
    from torch's generator; the noise and real batches of the successive
    iterations, and numpy's state after them, are those of [batches]: they
    depend on numpy's state before the run and on [N] only, not on the
    parameters being trained. *)
Theorem training_data_comes_from_numpy_alone (n : Z) (t : nat)
    (w0 : World) :
  (0 <= n)%Z ->
  exists w1 ls w,
    cell7_with n w0 = Ok (tt, w1)
    /\ np_random w1 = np_random w0
    /\ iterations t w1 = Ok (ls, w)
    /\ torch_rng w = torch_rng w1
    /\ map (fun l => (noise (fst l), real (fst l))) ls
       = fst (batches n t (np_random w0))
    /\ np_random w = snd (batches n t (np_random w0)).
Proof.
  intros Hn.
  destruct (cell7_with_Ok n w0 Hn) as (w1 & H1 & Hw1 & HN & Hnp & _).
  destruct (iterations_effects t w1 Hw1)
    as (ls & w & Hls & _ & _ & Htr & _ & _ & _ & _ & _ & Hbat & Hnp' & _).
  rewrite HN, Hnp in Hbat, Hnp'.
  exists w1, ls, w. conjunctions.
Qed.


(** X7: the set-up cell creates the generator's weight with shape
    [[1, N]], the discriminator's with shape [[1, 1]] and both biases with
    shape [[1]], all without a gradient; whatever the number of epochs,
    [train] returns and leaves these shapes, [N], the SGD optimizer (its
    parameters and its learning rate 0.01) and Adam's parameters and
    settings (0.01, 0.9, 0.999, 1e-8) as the set-up cell made them. *)
Theorem training_keeps_shapes_and_settings (n epochs : Z) (w0 : World) :
  (0 <= n)%Z ->
  exists w1 tr w2,
    cell7_with n w0 = Ok (tt, w1)
    /\ (forall p, grad (lookup (params w1) p) = None)
    /\ train epochs w1 = Ok (tr, w2)
    /\ (forall p, data_shape w1 p = data_shape w2 p)
    /\ data_shape w2 generator_fc_weight = [1%nat; Z.to_nat n]
    /\ data_shape w2 generator_fc_bias = [1%nat]
    /\ data_shape w2 discriminator_fc_weight = [1%nat; 1%nat]
    /\ data_shape w2 discriminator_fc_bias = [1%nat]
    /\ N w2 = n
    /\ optimizer_gen w2
       = {| sgd_params := Generator_parameters generator;
            sgd_lr := lit (1 # 100) |}
    /\ adam_params (optimizer_disc w2)
       = Discriminator_parameters discriminator
    /\ adam_lr (optimizer_disc w2) = lit (1 # 100)
    /\ adam_beta1 (optimizer_disc w2) = lit (9 # 10)
    /\ adam_beta2 (optimizer_disc w2) = lit (999 # 1000)
    /\ adam_eps (optimizer_disc w2) = lit (1 # 100000000).
Proof.
  intros Hn.
  destruct (cell7_with_fresh n w0 Hn)
    as (w1 & H1 & Hw1 & HN & _ & Hnone & Hog & Hod).
  destruct (iterations_effects (Z.to_nat epochs) w1 Hw1)
    as (ls & w2 & Hls & Hw2 & HN' & _ & Hog' & Hlr & Hb1 & Hb2 & Heps & _).
  assert (Htr : train epochs w1
                = Ok ((map (fun l => Tensor_item (loss_1 (fst l))) ls,
                       map (fun l => Tensor_item (loss_2 (snd l))) ls), w2)).
  { unfold train. now rewrite train_loop_iterations, Hls. }
  rewrite Hod in Hlr, Hb1, Hb2, Heps. cbn in Hlr, Hb1, Hb2, Heps.
  assert (HN2 : N w2 = n) by congruence.
  eexists w1, _, w2. split; [exact H1|]. split; [exact Hnone|].
  split; [exact Htr|].
  pose proof (ready_generator_weight Hw1) as A1.
  pose proof (ready_generator_bias Hw1) as A2.
  pose proof (ready_discriminator_weight Hw1) as A3.
  pose proof (ready_discriminator_bias Hw1) as A4.
  pose proof (ready_generator_weight Hw2) as B1.
  pose proof (ready_generator_bias Hw2) as B2.
  pose proof (ready_discriminator_weight Hw2) as B3.
  pose proof (ready_discriminator_bias Hw2) as B4.
  rewrite HN in A1. rewrite HN2 in B1.
  conjunctions; try congruence.
  - intros []; congruence.
  - apply (ready_optimizer_disc Hw2).
Qed.


(** X8: the set-up cell reads nothing of the globals it assigns.  From
    two worlds that agree on the states of the two random sources,
    whatever [N], the parameters, their gradients and the optimizers are
    in each, it leaves the same world (or raises the same exception):
    running the cell again discards all that an earlier training left. *)
Theorem set_up_cell_discards_earlier_state (n : Z) (w w' : World) :
  np_random w = np_random w' ->
  torch_rng w = torch_rng w' ->
  cell7_with n w = cell7_with n w'.
Proof.
  destruct w as [np tg N0 ps og od], w' as [np' tg' N0' ps' og' od'].
  cbn [np_random torch_rng]. intros <- <-. rewrite !cell7_with_eq.
  destruct (n <? 0)%Z; [reflexivity|].
  unfold initialised.
  cbn [torch_rng set_N].
  destruct (reset_parameters n 1 tg) as [[W b] g1].
  cbn [torch_rng set_params set_torch_rng].
  destruct (reset_parameters 1 1 g1) as [[W' b'] g2].
  reflexivity.
Qed.

End Proofs.

(** * The cells run on the fixed-point interpretation *)

Module Run.

Import FixedPoint.

Local Abbreviation World := (@World Q counter_RandomSource).
Local Abbreviation DiscLocals := (@DiscLocals Q).
Local Abbreviation GenLocals := (@GenLocals Q).
Local Abbreviation PyObj := (@PyObj Q).
Local Abbreviation Var := (@Var Q).
Local Abbreviation matrix := (@matrix Q).
Local Abbreviation tensor := (@tensor Q).
Local Abbreviation vector := (@vector Q).

(** C1, at [train(1)] after the set-up cell: the two traces hold one bound
    method each. *)
Lemma train_traces_hold_bound_methods_run :
  (0 <= 10)%Z
  /\ exists (w1 : World) (ls : list (DiscLocals * GenLocals)) (w2 : World),
      cell7_with 10 (blank 0 0) = Ok (tt, w1)
      /\ iterations (Z.to_nat 1) w1 = Ok (ls, w2)
      /\ train 1 w1
         = Ok ((map (fun l => Tensor_item (loss_1 (fst l))) ls,
                map (fun l => Tensor_item (loss_2 (snd l))) ls), w2)
      /\ Forall (fun l =>
                   Tensor_item (loss_1 (fst l))
                   <> PyFloat (lval (loss_1 (fst l)))
                   /\ call (Tensor_item (loss_1 (fst l)))
                      = Some (PyFloat (lval (loss_1 (fst l))))
                   /\ Tensor_item (loss_2 (snd l))
                      <> PyFloat (lval (loss_2 (snd l)))
                   /\ call (Tensor_item (loss_2 (snd l)))
                      = Some (PyFloat (lval (loss_2 (snd l)))))
                ls.
Proof.
  split; [lia|].
  apply (train_traces_hold_bound_methods 10 1 (blank 0 0)). lia.
Defined.

(** C2, at the second iteration of [train] after the set-up cell: the
    gradient that [optimizer_gen.step()] applies to the generator's bias is
    the sum of the gradients of the first and of the second [loss_2], and
    differs from the gradient of the second [loss_2] alone. *)
Lemma second_generator_step_applies_both_gradients :
  second_step
  = Some (Some (T1 [1663288693 # 17179869184]),
          Some (T1 [1675856255 # 34359738368]),
          Some (T1 [1650721131 # 34359738368]))
  /\ tensor_add (T1 [1675856255 # 34359738368])
                (T1 [1650721131 # 34359738368])
     = T1 [1663288693 # 17179869184]
  /\ T1 [1663288693 # 17179869184] <> T1 [1650721131 # 34359738368].
Proof.
  split; [vm_compute; reflexivity|].
  split; [vm_compute; reflexivity|discriminate].
Qed.

(** C3 as stated fails on a second run: after the set-up cell and a first
    call [train(1)], the second iteration of a run of two iterations
    applies to the generator's bias a gradient that is not the sum of the
    gradients of the run's two generator losses; the gradient of the
    first call's loss is in it too. *)
Lemma second_run_applies_the_first_run_gradient_too :
  second_run
  = Some (Some (T1 [38678837 # 268435456]),
          Some (T1 [1650721131 # 34359738368]),
          Some (T1 [812156875 # 17179869184]))
  /\ sum_tensors [T1 [1650721131 # 34359738368];
                  T1 [812156875 # 17179869184]]
     = Some (T1 [3275034881 # 34359738368])
  /\ Some (T1 [38678837 # 268435456])
     <> Some (T1 [3275034881 # 34359738368]).
Proof.
  split; [vm_compute; reflexivity|].
  split; [vm_compute; reflexivity|discriminate].
Qed.

(** C3 as amended, at the second iteration of a run that follows
    [train(1)]. *)
Lemma generator_step_applies_the_sum_of_gradients_run :
  (0 <= 10)%Z
  /\ exists (w1 : World) (ls0 : list (DiscLocals * GenLocals)) (w : World)
        (ls : list (DiscLocals * GenLocals)) (wt : World)
        (d : DiscLocals) (wd wd' : World) (g : GenLocals) (wg wg' : World),
      cell7_with 10 (blank 0 0) = Ok (tt, w1)
      /\ iterations 1 w1 = Ok (ls0, w)
      /\ train (Z.of_nat 1) w1
         = Ok ((map (fun l => Tensor_item (loss_1 (fst l))) ls0,
                map (fun l => Tensor_item (loss_2 (snd l))) ls0), w)
      /\ iterations 1 w = Ok (ls, wt)
      /\ discriminator_pass wt = Ok (d, wd)
      /\ optimizer_disc_step wd = Ok (tt, wd')
      /\ generator_pass (created d) wd' = Ok (g, wg)
      /\ optimizer_gen_step wg = Ok (tt, wg')
      /\ iterations 2 w = Ok (ls ++ [(d, g)], wg')
      /\ forall p, In p (Generator_parameters generator) ->
           exists (gs0 gs : list tensor) (G : tensor),
             Forall2 (fun l gr => grad_wrt (loss_2 (snd l)) p = Some gr)
                     ls0 gs0
             /\ length gs0 = 1%nat
             /\ grad (lookup (params w) p) = sum_tensors gs0
             /\ Forall2 (fun l gr => grad_wrt (loss_2 (snd l)) p = Some gr)
                        (ls ++ [(d, g)]) gs
             /\ length gs = 2%nat
             /\ accumulate_all (grad (lookup (params w) p)) gs = Some G
             /\ sum_tensors (gs0 ++ gs) = Some G
             /\ grad (lookup (params wg) p) = Some G
             /\ data (lookup (params wg') p)
                = tzip_ (fun v dv =>
                           fsub v (fmul (sgd_lr (optimizer_gen wg)) dv))
                        (data (lookup (params wg) p)) G.
Proof.
  split; [lia|].
  apply (generator_step_applies_the_sum_of_gradients 10 1 1 (blank 0 0)). lia.
Defined.

(** C4, at the first iteration. *)
Lemma optimizer_steps_are_isolated_run :
  (0 <= 10)%Z
  /\ exists (w1 : World) (ls : list (DiscLocals * GenLocals)) (w : World)
        (d : DiscLocals) (wd wd' : World) (g : GenLocals) (wg wg' : World),
      cell7_with 10 (blank 0 0) = Ok (tt, w1)
      /\ iterations 0 w1 = Ok (ls, w)
      /\ discriminator_pass w = Ok (d, wd)
      /\ optimizer_disc_step wd = Ok (tt, wd')
      /\ generator_pass (created d) wd' = Ok (g, wg)
      /\ optimizer_gen_step wg = Ok (tt, wg')
      /\ iteration w = Ok ((d, g), wg')
      /\ (forall p, In p (Generator_parameters generator) ->
                    lookup (params wd') p = lookup (params wd) p)
      /\ (forall p, In p (Discriminator_parameters discriminator) ->
                    lookup (params wg') p = lookup (params wg) p).
Proof.
  split; [lia|].
  apply (optimizer_steps_are_isolated 10 0 (blank 0 0)). lia.
Defined.

(** C5, at the first iteration. *)
Lemma discriminator_batch_is_real_then_fake_run :
  (0 <= 10)%Z
  /\ exists (w1 : World) (ls : list (DiscLocals * GenLocals)) (w : World)
        (d : DiscLocals) (wd wm : World),
      cell7_with 10 (blank 0 0) = Ok (tt, w1)
      /\ iterations 0 w1 = Ok (ls, w)
      /\ discriminator_pass w = Ok (d, wd)
      /\ Discriminator_forward true discriminator (x d) wm = Ok (out1 d, wm)
      /\ criterion (out1 d) (y d) wm = Ok (loss_1 d, wm)
      /\ val (x d) = val (real d) ++ val (created d)
      /\ length (val (real d)) = Z.to_nat BATCH_SZ
      /\ length (val (created d)) = Z.to_nat BATCH_SZ
      /\ length (val (x d)) = (2 * Z.to_nat BATCH_SZ)%nat
      /\ length (y d) = (2 * Z.to_nat BATCH_SZ)%nat
      /\ y d = repeat [fone] (Z.to_nat BATCH_SZ)
               ++ repeat [fzero] (Z.to_nat BATCH_SZ)
      /\ forall i, (i < Z.to_nat BATCH_SZ)%nat ->
           nth_error (val (x d)) i = nth_error (val (real d)) i
           /\ nth_error (y d) i = Some [fone]
           /\ nth_error (val (x d)) (Z.to_nat BATCH_SZ + i)
              = nth_error (val (created d)) i
           /\ nth_error (y d) (Z.to_nat BATCH_SZ + i) = Some [fzero].
Proof.
  split; [lia|].
  apply (discriminator_batch_is_real_then_fake 10 0 (blank 0 0)). lia.
Defined.

(** C6, at [train(3)]. *)
Lemma train_traces_have_length_epochs_run :
  (0 <= 10)%Z /\ (0 <= 3)%Z
  /\ exists (w1 : World) (loss_D loss_G : list PyObj) (w2 : World),
      cell7_with 10 (blank 0 0) = Ok (tt, w1)
      /\ train 3 w1 = Ok ((loss_D, loss_G), w2)
      /\ Z.of_nat (length loss_D) = 3%Z
      /\ Z.of_nat (length loss_G) = 3%Z.
Proof.
  split; [lia|]. split; [lia|].
  apply (train_traces_have_length_epochs 10 3 (blank 0 0)); lia.
Defined.

(** C8 as amended, in the fixed-point interpretation whose exponential
    is never negative; this interpretation rounds soundly. *)
Lemma rnd_le (a b : Q) : a <= b -> rnd a <= rnd b.
Proof.
  intros H. unfold rnd. rewrite !Qred_correct.
  assert (Hf : (Qfloor (a * inject_Z (2 ^ 40))
                <= Qfloor (b * inject_Z (2 ^ 40)))%Z).
  { apply Qfloor_resp_le. apply Qmult_le_compat_r; [exact H|].
    discriminate. }
  unfold Qle. cbn [Qnum Qden].
  apply Z.mul_le_mono_nonneg_r; [apply Pos2Z.is_nonneg|exact Hf].
Qed.

Lemma rnd_0 : rnd 0 = 0.
Proof. reflexivity. Qed.

Lemma rnd_1 : rnd 1 = 1.
Proof. reflexivity. Qed.

Lemma exp_horner_ge_1 (n : nat) (k : Z) (v : Q) :
  0 <= v -> (0 < k)%Z -> 1 <= exp_horner n k v.
Proof.
  intros Hv. revert k. induction n as [|n IH]; intros k Hk.
  - apply Qle_refl.
  - cbn [exp_horner].
    apply Qle_trans with (rnd 1); [rewrite rnd_1; apply Qle_refl|].
    apply rnd_le.
    apply Qle_trans with (1 + 0); [rewrite Qplus_0_r; apply Qle_refl|].
    apply Qplus_le_compat; [apply Qle_refl|].
    apply Qmult_le_0_compat.
    + apply Qle_shift_div_l; [unfold Qlt; simpl; lia|].
      now rewrite Qmult_0_l.
    + apply Qle_trans with 1; [discriminate|]. apply IH. lia.
Qed.

Lemma qexp_reciprocal_nonneg (v : Q) : 0 <= qexp_reciprocal v.
Proof.
  unfold qexp_reciprocal. destruct (Qle_bool 0 v) eqn:E.
  - apply Qle_bool_iff in E. apply Qle_trans with 1; [discriminate|].
    apply exp_horner_ge_1; [exact E|lia].
  - assert (Hv : 0 <= - v).
    { destruct (Qlt_le_dec v 0) as [H|H].
      - apply Qlt_le_weak, Qopp_le_compat in H. exact H.
      - apply Qle_bool_iff in H. congruence. }
    pose proof (exp_horner_ge_1 12 1 (- v) Hv ltac:(lia)) as HE.
    fold (qexp (- v)) in HE.
    apply Qle_trans with (rnd 0); [rewrite rnd_0; apply Qle_refl|].
    apply rnd_le. apply Qle_shift_div_l.
    + apply Qlt_le_trans with 1; [reflexivity|exact HE].
    + rewrite Qmult_0_l. discriminate.
Qed.

Lemma Q_Scalar_reciprocal_sound : @sound_rounding Q Q_Scalar_reciprocal.
Proof.
  split.
  - intros v. cbn [fltb fadd fone fexp Q_Scalar_reciprocal].
    apply negb_false_iff, Qle_bool_iff.
    apply Qle_trans with (rnd 1); [rewrite rnd_1; apply Qle_refl|].
    apply rnd_le.
    apply Qle_trans with (1 + 0); [rewrite Qplus_0_r; apply Qle_refl|].
    apply Qplus_le_compat; [apply Qle_refl|apply qexp_reciprocal_nonneg].
  - intros d Hd. cbn [fltb fone Q_Scalar_reciprocal] in Hd.
    apply negb_false_iff, Qle_bool_iff in Hd.
    assert (Hpos : 0 < d)
      by (apply Qlt_le_trans with 1; [reflexivity|exact Hd]).
    split; cbn [fltb fdiv fone fzero Q_Scalar_reciprocal];
      apply negb_false_iff, Qle_bool_iff.
    + apply Qle_trans with (rnd 0); [rewrite rnd_0; apply Qle_refl|].
      apply rnd_le. apply Qle_shift_div_l; [exact Hpos|].
      rewrite Qmult_0_l. discriminate.
    + apply Qle_trans with (rnd 1); [|rewrite rnd_1; apply Qle_refl].
      apply rnd_le. apply Qle_shift_div_r; [exact Hpos|].
      now rewrite Qmult_1_l.
Qed.

Section Reciprocal.

#[local] Existing Instance Q_Scalar_reciprocal | 0.


End Reciprocal.

(** C9 as stated fails: for one sample, right after the set-up cell, the
    evaluation cell returns a tensor of shape [[1, 1]], not the 1-D shape
    [[1]]. *)
Lemma evaluate_output_is_not_flattened :
  evaluated_size 1 = Some [1%nat; 1%nat]
  /\ evaluated_size 1 <> Some [1%nat].
Proof.
  assert (H : evaluated_size 1 = Some [1%nat; 1%nat])
    by (vm_compute; reflexivity).
  split; [exact H|]. rewrite H. discriminate.
Qed.

(** C9 as amended, for three samples after [train(1)]. *)
Lemma evaluate_returns_one_column_run :
  (0 <= 10)%Z /\ (1 <= 3)%Z
  /\ exists (w1 : World) (tr : list PyObj * list PyObj) (w2 : World)
        (a : matrix) (v : Var) (w3 : World),
      cell7_with 10 (blank 0 0) = Ok (tt, w1)
      /\ train 1 w1 = Ok (tr, w2)
      /\ evaluate 3 w2 = Ok (v, w3)
      /\ a = fst (draw_rows random_sample (Z.to_nat 3) (Z.to_nat 10)
                   (np_random w2))
      /\ np_random w3
         = snd (draw_rows random_sample (Z.to_nat 3) (Z.to_nat 10)
                  (np_random w2))
      /\ length a = Z.to_nat 3
      /\ Forall (fun r : vector => length r = Z.to_nat 10) a
      /\ Generator_forward false generator (torch_tensor a) w2 = Ok (v, w2)
      /\ size v = [Z.to_nat 3; 1%nat]
      /\ length (concat (val v)) = Z.to_nat 3
      /\ grad_fn v = None
      /\ params w3 = params w2
      /\ optimizer_gen w3 = optimizer_gen w2
      /\ optimizer_disc w3 = optimizer_disc w2
      /\ torch_rng w3 = torch_rng w2
      /\ N w3 = N w2.
Proof.
  split; [lia|]. split; [lia|].
  apply (evaluate_returns_one_column 10 1 3 (blank 0 0)); lia.
Defined.



(** X1, for [train(1)] followed by [train(2)] after the set-up cell. *)
Lemma train_again_continues_run :
  (0 <= 1)%Z /\ (0 <= 2)%Z
  /\ bind (train 1)
          (fun r1 => bind (train 2)
                          (fun r2 => ret (fst r1 ++ fst r2,
                                          snd r1 ++ snd r2))) fresh
     = train (1 + 2) fresh.
Proof.
  split; [lia|]. split; [lia|].
  apply (train_again_continues 1 2 fresh); lia.
Defined.

(** X2, at the second iteration. *)
Lemma discriminator_pass_spares_the_generator_run :
  (0 <= 10)%Z
  /\ exists (w1 : World) (ls : list (DiscLocals * GenLocals)) (w : World)
        (d : DiscLocals) (wd : World),
      cell7_with 10 (blank 0 0) = Ok (tt, w1)
      /\ iterations 1 w1 = Ok (ls, w)
      /\ discriminator_pass w = Ok (d, wd)
      /\ x d = torch_concat (real d) (detach (created d))
      /\ grad_fn (x d) = None
      /\ tracked (grad_fn (created d)) (Generator_parameters generator)
      /\ forall p, In p (Generator_parameters generator) ->
           grad_wrt (loss_1 d) p = None
           /\ lookup (params wd) p = lookup (params w) p.
Proof.
  split; [lia|].
  apply (discriminator_pass_spares_the_generator 10 1 (blank 0 0)). lia.
Defined.

(** X3, at the second iteration. *)
Lemma discriminator_step_applies_this_loss_gradient_run :
  (0 <= 10)%Z
  /\ exists (w1 : World) (ls : list (DiscLocals * GenLocals)) (w : World)
        (d : DiscLocals) (wd : World),
      cell7_with 10 (blank 0 0) = Ok (tt, w1)
      /\ iterations 1 w1 = Ok (ls, w)
      /\ discriminator_pass w = Ok (d, wd)
      /\ optimizer_disc_step wd = Ok (tt, after_optimizer_disc_step wd)
      /\ forall p, In p (Discriminator_parameters discriminator) ->
           exists g1 : tensor,
             grad_wrt (loss_1 d) p = Some g1
             /\ grad (lookup (params wd) p) = Some g1
             /\ data (lookup (params (after_optimizer_disc_step wd)) p)
                = tzip_ fsub (data (lookup (params wd) p))
                    (adam_direction (optimizer_disc wd)
                       (adam_moments (optimizer_disc wd)
                          (adam_state_before (optimizer_disc wd)
                             (params wd) p)
                          g1)).
Proof.
  split; [lia|].
  apply (discriminator_step_applies_this_loss_gradient 10 1 (blank 0 0)).
  lia.
Defined.

(** X4, at the first iteration. *)
Lemma generator_loss_uses_the_updated_discriminator_run :
  (0 <= 10)%Z
  /\ exists (w1 : World) (ls : list (DiscLocals * GenLocals)) (w : World)
        (d : DiscLocals) (wd : World) (g : GenLocals) (wg wm0 wm : World),
      cell7_with 10 (blank 0 0) = Ok (tt, w1)
      /\ iterations 0 w1 = Ok (ls, w)
      /\ discriminator_pass w = Ok (d, wd)
      /\ generator_pass (created d) (after_optimizer_disc_step wd)
         = Ok (g, wg)
      /\ iteration w = Ok ((d, g), after_optimizer_gen_step wg)
      /\ Generator_forward true generator (noise d) wm0
         = Ok (created d, wm0)
      /\ (forall p, data (lookup (params wm0) p)
                    = data (lookup (params w) p))
      /\ Discriminator_forward true discriminator (created d) wm
         = Ok (out2 g, wm)
      /\ criterion (out2 g) (torch_zeros BATCH_SZ) wm = Ok (loss_2 g, wm)
      /\ (forall p,
            data (lookup (params wm) p)
            = data (lookup (params (after_optimizer_disc_step wd)) p))
      /\ tracked (lgrad_fn (loss_2 g))
           (Discriminator_parameters discriminator
            ++ Generator_parameters generator)
      /\ forall p, In p (Discriminator_parameters discriminator) ->
           exists gr : tensor,
             grad_wrt (loss_2 g) p = Some gr
             /\ grad (lookup (params (after_optimizer_gen_step wg)) p)
                = Some gr.
Proof.
  split; [lia|].
  apply (generator_loss_uses_the_updated_discriminator 10 0 (blank 0 0)).
  lia.
Defined.

(** X5, for two iterations. *)
Lemma training_data_comes_from_numpy_alone_run :
  (0 <= 10)%Z
  /\ exists (w1 : World) (ls : list (DiscLocals * GenLocals)) (w : World),
      cell7_with 10 (blank 0 0) = Ok (tt, w1)
      /\ np_random w1 = np_random (blank 0 0)
      /\ iterations 2 w1 = Ok (ls, w)
      /\ torch_rng w = torch_rng w1
      /\ map (fun l => (noise (fst l), real (fst l))) ls
         = fst (batches 10 2 (np_random (blank 0 0)))
      /\ np_random w = snd (batches 10 2 (np_random (blank 0 0))).
Proof.
  split; [lia|].
  apply (training_data_comes_from_numpy_alone 10 2 (blank 0 0)). lia.
Defined.


(** X7, for [train(2)]. *)
Lemma training_keeps_shapes_and_settings_run :
  (0 <= 10)%Z
  /\ exists (w1 : World) (tr : list PyObj * list PyObj) (w2 : World),
      cell7_with 10 (blank 0 0) = Ok (tt, w1)
      /\ (forall p, grad (lookup (params w1) p) = None)
      /\ train 2 w1 = Ok (tr, w2)
      /\ (forall p, data_shape w1 p = data_shape w2 p)
      /\ data_shape w2 generator_fc_weight = [1%nat; Z.to_nat 10]
      /\ data_shape w2 generator_fc_bias = [1%nat]
      /\ data_shape w2 discriminator_fc_weight = [1%nat; 1%nat]
      /\ data_shape w2 discriminator_fc_bias = [1%nat]
      /\ N w2 = 10%Z
      /\ optimizer_gen w2
         = {| sgd_params := Generator_parameters generator;
              sgd_lr := lit (1 # 100) |}
      /\ adam_params (optimizer_disc w2)
         = Discriminator_parameters discriminator
      /\ adam_lr (optimizer_disc w2) = lit (1 # 100)
      /\ adam_beta1 (optimizer_disc w2) = lit (9 # 10)
      /\ adam_beta2 (optimizer_disc w2) = lit (999 # 1000)
      /\ adam_eps (optimizer_disc w2) = lit (1 # 100000000).
Proof.
  split; [lia|].
  apply (training_keeps_shapes_and_settings 10 2 (blank 0 0)). lia.
Defined.


(** X8, for a world that has been trained and seeded again. *)
Lemma set_up_cell_discards_earlier_state_run :
  np_random (blank 0 0) = np_random reseeded
  /\ torch_rng (blank 0 0) = torch_rng reseeded
  /\ cell7_with 10 (blank 0 0) = cell7_with 10 reseeded.
Proof.
  assert (Hnp : np_random (blank 0 0) = np_random reseeded)
    by (vm_compute; reflexivity).
  assert (Htorch : torch_rng (blank 0 0) = torch_rng reseeded)
    by (vm_compute; reflexivity).
  split; [exact Hnp|]. split; [exact Htorch|].
  apply (set_up_cell_discards_earlier_state 10 (blank 0 0) reseeded);
    [exact Hnp|exact Htorch].
Defined.

End Run.

(** * In binary32 *)

Module Run32.

Import Binary32.


End Run32.
